(** * mdx_include: the include preprocessor of [mdx_include/mdx_include.py]

    A shallow embedding of [IncludePreprocessor] and of the module-level
    retrieval helpers.  Python state (the two content-cache dictionaries and
    the [Cyclic] tracker held by [self]) is threaded explicitly, exceptions
    are results of a state-and-error monad, and the collaborators that are not
    part of the repository are parameters: the tracker of package [cyclic]
    is a class, and the compiled regular expression, [RowSlice], [os.path],
    [urlparse], the file system and the network are the fields of a record
    [Host]. *)

From Stdlib Require Import Ascii String.
From stdpp Require Import base option list gmap strings.

(** ** Python string primitives *)

Module Py.

  (** [str.isspace] on one character, for code points below 256. *)
Definition isspace (c : ascii) : bool :=
  let n := nat_of_ascii c in
  ((9 <=? n) && (n <=? 13)) || ((28 <=? n) && (n <=? 32))
  || (n =? 133) || (n =? 160).

(** Truthiness of a [str]: the empty string is false. *)
Definition truthy (s : string) : bool :=
  match s with EmptyString => false | String _ _ => true end.

(** Truthiness of a value that may be [None]. *)
Definition truthy_opt (o : option string) : bool :=
  match o with Some s => truthy s | None => false end.

(** [s[n:]] for [n >= 0]. *)
Fixpoint from (n : nat) (s : string) : string :=
  match n, s with
  | 0, _ => s
  | S _, EmptyString => EmptyString
  | S n', String _ r => from n' r
  end.

(** [s[:n]] for [n >= 0]. *)
Fixpoint upto (n : nat) (s : string) : string :=
  match n, s with
  | 0, _ => EmptyString
  | S _, EmptyString => EmptyString
  | S n', String c r => String c (upto n' r)
  end.

(** [s[a:b]] for [a, b >= 0]; empty when [b <= a]. *)
Definition slice (a b : nat) (s : string) : string :=
  upto (b - a) (from a s).

(** [s.lstrip()]. *)
Fixpoint lstrip (s : string) : string :=
  match s with
  | EmptyString => EmptyString
  | String c r => if isspace c then lstrip r else s
  end.

(** [s.rstrip()]. *)
Fixpoint rstrip (s : string) : string :=
  match s with
  | EmptyString => EmptyString
  | String c r =>
      match rstrip r with
      | EmptyString => if isspace c then EmptyString else String c EmptyString
      | r' => String c r'
      end
  end.

(** [s.strip()]. *)
Definition strip (s : string) : string := lstrip (rstrip s).

(** [s.rstrip("/")]. *)
Fixpoint rstrip_slash (s : string) : string :=
  match s with
  | EmptyString => EmptyString
  | String c r =>
      match rstrip_slash r with
      | EmptyString =>
          if Ascii.eqb c "/"%char then EmptyString else String c EmptyString
      | r' => String c r'
      end
  end.

(** [s.replace("-", "_")]. *)
Fixpoint dash_to_underscore (s : string) : string :=
  match s with
  | EmptyString => EmptyString
  | String c r =>
      String (if Ascii.eqb c "-"%char then "_"%char else c)
             (dash_to_underscore r)
  end.

(** Line boundaries of [str.splitlines] below code point 256, other than
    the two-character boundary CR LF. *)
Definition is_linebreak (c : ascii) : bool :=
  let n := nat_of_ascii c in
  ((10 <=? n) && (n <=? 13)) || ((28 <=? n) && (n <=? 30)) || (n =? 133).

(** [splitlines_from cur s]: [cur] holds the current line, reversed.  A
    final line is produced only when it is not empty, as in Python. *)
Fixpoint splitlines_from (cur : list ascii) (s : string) : list string :=
  match s with
  | EmptyString =>
      match cur with
      | [] => []
      | _ => [string_of_list_ascii (rev cur)]
      end
  | String c r =>
      if is_linebreak c then
        string_of_list_ascii (rev cur) ::
          match r with
          | String d r' =>
              if (nat_of_ascii c =? 13) && (nat_of_ascii d =? 10)
              then splitlines_from [] r'
              else splitlines_from [] r
          | EmptyString => splitlines_from [] r
          end
      else splitlines_from (c :: cur) r
  end.

(** [s.splitlines()]. *)
Definition splitlines (s : string) : list string := splitlines_from [] s.

(** [min(xs)] on a sequence of integers: [None] stands for the
    [ValueError] Python raises on an empty sequence. *)
Definition min (xs : list nat) : option nat :=
  match xs with
  | [] => None
  | x :: r => Some (foldl Nat.min x r)
  end.

End Py.

(** ** Data *)

(** The options of [IncludeExtension.config] that the preprocessor reads.
    The delimiter tokens other than the two recursion toggles only feed the
    compiled pattern and [line_slice_separator] only feeds [RowSlice]; both
    collaborators are abstract below.  [setConfig] accepts [None] for the
    boolean options: for [recurs_local] and [recurs_remote] the code tells
    [None] from [False], for every other option it only tests truthiness, so
    [None] is [false] here. *)
Record Config := {
  base_path : string;
  encoding : string;
  allow_local : bool;
  allow_remote : bool;
  truncate_on_failure : bool;
  recurs_local : option bool;
  recurs_remote : option bool;
  syntax_recurs_on : string;
  syntax_recurs_off : string;
  content_cache_local : bool;
  content_cache_remote : bool;
  content_cache_clean_local : bool;
  content_cache_clean_remote : bool;
  allow_circular_inclusion : bool;
  recursive_relative_path : bool
}.

(** The defaults of [IncludeExtension.__init__]. *)
Definition default_config : Config := {|
  base_path := ".";
  encoding := "utf-8";
  allow_local := true;
  allow_remote := true;
  truncate_on_failure := true;
  recurs_local := Some true;
  recurs_remote := Some false;
  syntax_recurs_on := "+";
  syntax_recurs_off := "-";
  content_cache_local := true;
  content_cache_remote := true;
  content_cache_clean_local := false;
  content_cache_clean_remote := false;
  allow_circular_inclusion := false;
  recursive_relative_path := false
|}.

(** One match object of [compiled_re.finditer(line)]: its span and its
    [groupdict()].  A group that did not take part in the match is [None]. *)
Record Match := {
  m_start : nat;
  m_end : nat;
  g_escape : option string;
  g_recursive : option string;
  g_strip_indent : option string;
  g_apply_indent : option string;
  g_path : string;
  g_lines : option string;
  g_encoding : option string
}.

(** [m.group(0)]: the text of [line] over the span of the match. *)
Definition group0 (line : string) (m : Match) : string :=
  Py.slice (m_start m) (m_end m) line.

Inductive Kind := Local | Remote.

#[global] Instance Kind_eq_dec : EqDecision Kind.
Proof. solve_decision. Defined.

(** What a run does to the outside and to its caches, oldest first. *)
Inductive Event :=
| Retrieve (k : Kind) (key enc : string) (ok : bool)
| CacheLookup (k : Kind) (key : string) (hit : bool)
| CacheStore (k : Kind) (key : string) (lines : list string).

(** The exceptions that leave [run].  [OutOfFuel] is not a Python exception:
    it marks a nesting of inclusions deeper than the bound given to the
    model. *)
Inductive Exn :=
| RuntimeError (msg : string)
| ValueError (msg : string)
| OutOfFuel.

Inductive Res (A : Type) :=
| Ok (a : A)
| Raise (e : Exn).
Arguments Ok {A} a.
Arguments Raise {A} e.

(** The interface of [cyclic.Cyclic] that the preprocessor uses. *)
Class CyclicOps (T : Type) := {
  Cyclic_new : T;
  Cyclic_add : string → string → T → T;
  Cyclic_is_cyclic : string → T → bool;
  (** [str(self.cyclic.root[filename])] *)
  Cyclic_root_str : string → T → string
}.

(** The other collaborators: the pattern compiled by [IncludeExtension], the
    [RowSlice] object, the functions of [os.path] and [urllib], the set of
    encodings Python ships, and the two retrieval capabilities.  A retrieval
    sees the events so far, so that a file may change during a run; [None]
    is any exception raised while opening, reading or decoding. *)
Record Host := {
  finditer : string → list Match;
  row_slice : list string → string → list string;
  expanduser : string → string;
  isabs : string → bool;
  normpath : string → string;
  path_join : string → string → string;
  dirname : string → string;
  url_netloc : string → string;
  url_unparse : string → string;
  found_encoding : string → bool;
  read_file : list Event → string → string → option string;
  download : list Event → string → string → option string
}.

(** The mutable part of an [IncludePreprocessor]. *)
Record State (T : Type) := {
  mdx_include_content_cache_local : gmap string (list string);
  mdx_include_content_cache_remote : gmap string (list string);
  cyclic : T;
  trace : list Event
}.
Arguments mdx_include_content_cache_local {T} _.
Arguments mdx_include_content_cache_remote {T} _.
Arguments cyclic {T} _.
Arguments trace {T} _.

(** ** State and exceptions *)

Definition M (T A : Type) : Type := State T → State T * Res A.

Definition ret {T A} (a : A) : M T A := fun st => (st, Ok a).

Definition raise {T A} (e : Exn) : M T A := fun st => (st, Raise e).

Definition bind {T A B} (x : M T A) (f : A → M T B) : M T B :=
  fun st =>
    match x st with
    | (st', Ok a) => f a st'
    | (st', Raise e) => (st', Raise e)
    end.

Notation "x <- c1 ;; c2" := (bind c1 (fun x => c2))
  (at level 100, c1 at next level, right associativity).
Notation "c1 ;;; c2" := (bind c1 (fun _ => c2))
  (at level 100, c2 at level 200, right associativity).

Definition get_state {T} : M T (State T) := fun st => (st, Ok st).

Definition log {T} (ev : Event) : M T unit :=
  fun st =>
    ({| mdx_include_content_cache_local := mdx_include_content_cache_local st;
        mdx_include_content_cache_remote := mdx_include_content_cache_remote st;
        cyclic := cyclic st;
        trace := trace st ++ [ev] |}, Ok tt).

Definition set_cache_local {T} (c : gmap string (list string)) : M T unit :=
  fun st =>
    ({| mdx_include_content_cache_local := c;
        mdx_include_content_cache_remote := mdx_include_content_cache_remote st;
        cyclic := cyclic st;
        trace := trace st |}, Ok tt).

Definition set_cache_remote {T} (c : gmap string (list string)) : M T unit :=
  fun st =>
    ({| mdx_include_content_cache_local := mdx_include_content_cache_local st;
        mdx_include_content_cache_remote := c;
        cyclic := cyclic st;
        trace := trace st |}, Ok tt).

Definition set_cyclic {T} (t : T) : M T unit :=
  fun st =>
    ({| mdx_include_content_cache_local := mdx_include_content_cache_local st;
        mdx_include_content_cache_remote := mdx_include_content_cache_remote st;
        cyclic := t;
        trace := trace st |}, Ok tt).

(** A [for] loop with an accumulator; an exception ends it. *)
Fixpoint for_each {T A B} (f : B → A → M T B) (xs : list A) (acc : B) : M T B :=
  match xs with
  | [] => ret acc
  | x :: r => acc' <- f acc x ;; for_each f r acc'
  end.

(** ** Module-level functions *)

Module mdx_include.
Section Functions.

Context {T : Type}.
Variable host : Host.

(** [encoding_exists(encoding)]; [found] is the set of the codec modules
    of the running Python. *)
Definition encoding_exists (enc : option string) : bool :=
  match enc with
  | Some e =>
      if Py.truthy e then
        if found_encoding host e then true
        else if found_encoding host (Py.dash_to_underscore e) then true
        else false
      else false
  | None => false
  end.

(** [get_remote_content_list(url, encoding)]: every exception is caught. *)
Definition get_remote_content_list (url enc : string)
  : M T (list string * bool) :=
  st <- get_state ;;
  match download host (trace st) url enc with
  | Some body =>
      log (Retrieve Remote url enc true) ;;;
      ret (Py.splitlines (body +:+ String "010" ""), true)
  | None =>
      log (Retrieve Remote url enc false) ;;;
      ret ([], false)
  end.

(** [get_local_content_list(filename, encoding)]: every exception is
    caught. *)
Definition get_local_content_list (filename enc : string)
  : M T (list string * bool) :=
  st <- get_state ;;
  match read_file host (trace st) filename enc with
  | Some body =>
      log (Retrieve Local filename enc true) ;;;
      ret (Py.splitlines (body +:+ String "010" ""), true)
  | None =>
      log (Retrieve Local filename enc false) ;;;
      ret ([], false)
  end.

End Functions.
End mdx_include.

(** ** The methods of [IncludePreprocessor] *)

Module IncludePreprocessor.

  (** [resll[-1] = f(resll[-1])]. *)
Fixpoint set_last (f : string → string) (resll : list string) : list string :=
  match resll with
  | [] => []
  | [x] => [f x]
  | x :: r => x :: set_last f r
  end.

(** Lines 374-379 of [mdx_include_get_processed_lines]: the minimum of the
    leading-whitespace widths of the lines that are not blank, removed
    from every line. *)
Definition indent_width (item : string) : nat :=
  String.length item - String.length (Py.lstrip item).

Definition num_common_spaces (textl : list string) : option nat :=
  Py.min (map indent_width
            (filter (λ item, Py.truthy (Py.strip item) = true) textl)).

Definition strip_common_indent {T} (textl : list string) : M T (list string) :=
  match num_common_spaces textl with
  | Some n => ret (map (Py.from n) textl)
  | None => raise (ValueError "min() arg is an empty sequence")
  end.

(** Lines 381-391: [prefix] is [line[c:s]], the text between the previous
    match (or the start of the line) and this one. *)
Definition splice (prefix : string) (apply_indent : option string)
    (resll textl : list string) : list string :=
  match textl with
  | t0 :: rest =>
      match resll with
      | _ :: _ => set_last (λ last, last +:+ prefix +:+ t0) resll ++ rest
      | [] =>
          if bool_decide (apply_indent ≠ Some "")
          then map (λ element, prefix +:+ element) textl
          else [prefix +:+ t0] ++ rest
      end
  | [] => resll ++ [prefix]
  end.

(** Lines 396-399: the rest of the line after the last match. *)
Definition finish_line (rest : string) (resll : list string) : list string :=
  match resll with
  | _ :: _ => set_last (λ last, last +:+ rest) resll
  | [] => [rest]
  end.

Section Methods.

Context {T : Type} `{CyclicOps T}.
Variable host : Host.
Variable self : Config.

(** The message of the [RuntimeError] of line 239. *)
Definition circular_message (parent filename chain : string) : string :=
  "Circular inclusion not allowed; detected in file: " +:+ parent
  +:+ " when including " +:+ filename
  +:+ " whose parents are: " +:+ chain.

(** [self.cyclic.add(filename, parent)]. *)
Definition cyclic_add (filename parent : string) : M T unit :=
  st <- get_state ;;
  set_cyclic (Cyclic_add filename parent (cyclic st)).

(** [filename in self.mdx_include_content_cache_remote], evaluated only
    when [self.content_cache_remote] holds. *)
Definition lookup_remote (filename : string) : M T (option (list string)) :=
  if content_cache_remote self then
    st <- get_state ;;
    log (CacheLookup Remote filename
           (bool_decide (is_Some (mdx_include_content_cache_remote st !! filename)))) ;;;
    ret (mdx_include_content_cache_remote st !! filename)
  else ret None.

Definition lookup_local (filename : string) : M T (option (list string)) :=
  if content_cache_local self then
    st <- get_state ;;
    log (CacheLookup Local filename
           (bool_decide (is_Some (mdx_include_content_cache_local st !! filename)))) ;;;
    ret (mdx_include_content_cache_local st !! filename)
  else ret None.

(** [self.mdx_include_content_cache_remote[filename] = textl]. *)
Definition store_remote (filename : string) (textl : list string) : M T unit :=
  st <- get_state ;;
  set_cache_remote (<[filename := textl]> (mdx_include_content_cache_remote st)) ;;;
  log (CacheStore Remote filename textl).

Definition store_local (filename : string) (textl : list string) : M T unit :=
  st <- get_state ;;
  set_cache_local (<[filename := textl]> (mdx_include_content_cache_local st)) ;;;
  log (CacheStore Local filename textl).

Definition get_remote_content_list (filename enc : string)
  : M T (list string * bool) :=
  cached <- lookup_remote filename ;;
  match cached with
  | Some textl => ret (textl, true)
  | None =>
      r <- mdx_include.get_remote_content_list host filename enc ;;
      (if snd r && content_cache_remote self
       then store_remote filename (fst r)
       else ret tt) ;;;
      ret r
  end.

Definition get_local_content_list (filename enc : string)
  : M T (list string * bool) :=
  cached <- lookup_local filename ;;
  match cached with
  | Some textl => ret (textl, true)
  | None =>
      r <- mdx_include.get_local_content_list host filename enc ;;
      (if snd r && content_cache_local self
       then store_local filename (fst r)
       else ret tt) ;;;
      ret r
  end.

(** The recursive call [self.mdx_include_get_processed_lines(textl,
    filename)] is a parameter of the methods that lead to it; the knot
    is tied below. *)
Variable recur : list string → string → M T (list string).

Definition mdx_include_get_cyclic_safe_processed_line_list
    (textl : list string) (filename parent : string) : M T (list string) :=
  st <- get_state ;;
  if negb (Cyclic_is_cyclic filename (cyclic st)) then
    recur textl filename
  else if allow_circular_inclusion self then
    ret textl
  else
    raise (RuntimeError
             (circular_message parent filename
                (Cyclic_root_str filename (cyclic st)))).

Definition get_recursive_content_list
    (textl : list string) (filename parent : string)
    (recursive : option bool) (recurse_state : option string)
  : M T (list string) :=
  match recursive with
  | Some true =>
      if bool_decide (recurse_state ≠ Some (syntax_recurs_off self))
      then mdx_include_get_cyclic_safe_processed_line_list textl filename parent
      else ret textl
  | None =>
      if bool_decide (recurse_state = Some (syntax_recurs_on self))
      then mdx_include_get_cyclic_safe_processed_line_list textl filename parent
      else ret textl
  | Some false => ret textl
  end.

(** Lines 301-304: the encoding named by the directive, or the
    configured one. *)
Definition choose_encoding (enc : option string) : string :=
  match enc with
  | Some e => if mdx_include.encoding_exists host enc then e else encoding self
  | None => encoding self
  end.

(** [if file_lines: textl = self.row_slice.slice(textl, file_lines)]. *)
Definition slice_lines (file_lines : option string) (textl : list string)
  : list string :=
  match file_lines with
  | Some spec => if Py.truthy spec then row_slice host textl spec else textl
  | None => textl
  end.

(** Lines 335-339: the path of a local file. *)
Definition local_filename (filename parent : string) : string :=
  if negb (isabs host filename) then
    if recursive_relative_path self && Py.truthy parent
    then normpath host (path_join host (dirname host parent) filename)
    else normpath host (path_join host (base_path self) filename)
  else filename.

(** Lines 295-360: the branch of a directive that is not escaped; the
    result is [(textl, stat)]. *)
Definition include_directive (parent : string) (m : Match)
  : M T (list string * bool) :=
  let filename := expanduser host (g_path m) in
  let enc := choose_encoding (g_encoding m) in
  if Py.truthy (url_netloc host filename) then
    if allow_remote self then
      let filename := Py.rstrip_slash (url_unparse host filename) in
      cyclic_add filename parent ;;;
      r <- get_remote_content_list filename enc ;;
      let textl := slice_lines (g_lines m) (fst r) in
      textl <- get_recursive_content_list textl filename parent
                 (recurs_remote self) (g_recursive m) ;;
      ret (textl, snd r)
    else ret ([], false)
  else if allow_local self then
    let filename := local_filename filename parent in
    cyclic_add filename parent ;;;
    r <- get_local_content_list filename enc ;;
    let textl := slice_lines (g_lines m) (fst r) in
    textl <- get_recursive_content_list textl filename parent
               (recurs_local self) (g_recursive m) ;;
    ret (textl, snd r)
  else ret ([], false).

(** What [include_directive] holds when it reaches
    [get_recursive_content_list]: the key, the configured recursion of
    its kind, the content after slicing and the status. *)
Record Fetched := {
  f_key : string;
  f_recursive : option bool;
  f_textl : list string;
  f_stat : bool
}.

(** [include_directive] up to [get_recursive_content_list]; [None] when
    the kind of the target is not allowed. *)
Definition fetch_directive (parent : string) (m : Match)
  : M T (option Fetched) :=
  let filename := expanduser host (g_path m) in
  let enc := choose_encoding (g_encoding m) in
  if Py.truthy (url_netloc host filename) then
    if allow_remote self then
      let filename := Py.rstrip_slash (url_unparse host filename) in
      cyclic_add filename parent ;;;
      r <- get_remote_content_list filename enc ;;
      ret (Some {| f_key := filename; f_recursive := recurs_remote self;
                   f_textl := slice_lines (g_lines m) (fst r);
                   f_stat := snd r |})
    else ret None
  else if allow_local self then
    let filename := local_filename filename parent in
    cyclic_add filename parent ;;;
    r <- get_local_content_list filename enc ;;
    ret (Some {| f_key := filename; f_recursive := recurs_local self;
                 f_textl := slice_lines (g_lines m) (fst r);
                 f_stat := snd r |})
  else ret None.

(** Whether [get_recursive_content_list] goes on to
    [mdx_include_get_cyclic_safe_processed_line_list]. *)
Definition effective_recursion (recursive : option bool)
    (recurse_state : option string) : bool :=
  match recursive with
  | Some true => bool_decide (recurse_state ≠ Some (syntax_recurs_off self))
  | None => bool_decide (recurse_state = Some (syntax_recurs_on self))
  | Some false => false
  end.

(** Lines 287-367: the content that replaces one match. *)
Definition match_content (parent line : string) (m : Match)
  : M T (list string) :=
  let total_match := group0 line m in
  r <- (if negb (Py.truthy_opt (g_escape m))
        then include_directive parent m
        else ret ([Py.from 1 total_match], true)) ;;
  if negb (snd r) && negb (truncate_on_failure self)
  then ret [total_match]
  else ret (fst r).

(** Lines 371-379: strip-indent applies to content that is not empty. *)
Definition strip_content (m : Match) (textl : list string)
  : M T (list string) :=
  match textl with
  | [] => ret []
  | _ :: _ =>
      if Py.truthy_opt (g_strip_indent m)
      then strip_common_indent textl
      else ret textl
  end.

(** The body of [for m in ms]; the state of the loop is [(c, resll)]. *)
Definition process_match (parent line : string)
    (acc : nat * list string) (m : Match) : M T (nat * list string) :=
  textl <- match_content parent line m ;;
  textl <- strip_content m textl ;;
  ret (m_end m,
       splice (Py.slice (fst acc) (m_start m) line) (g_apply_indent m)
              (snd acc) textl).

(** The body of [for line in lines]. *)
Definition process_line (parent : string) (new_lines : list string)
    (line : string) : M T (list string) :=
  acc <- for_each (process_match parent line) (finditer host line) (0, []) ;;
  ret (new_lines ++ finish_line (Py.from (fst acc) line) (snd acc)).

Definition process_lines (lines : list string) (parent : string)
  : M T (list string) :=
  for_each (process_line parent) lines [].

End Methods.

(** [mdx_include_get_processed_lines(lines, parent)], with a bound on the
    depth of nested inclusions. *)
Fixpoint mdx_include_get_processed_lines {T} `{CyclicOps T}
    (host : Host) (self : Config) (fuel : nat)
    (lines : list string) (parent : string) : M T (list string) :=
  match fuel with
  | 0 => raise OutOfFuel
  | S fuel' =>
      process_lines host self
        (mdx_include_get_processed_lines host self fuel') lines parent
  end.

(** [run(lines)]. *)
Definition run {T} `{CyclicOps T} (host : Host) (self : Config) (fuel : nat)
    (lines : list string) : M T (list string) :=
  set_cyclic Cyclic_new ;;;
  new_lines <- mdx_include_get_processed_lines host self fuel lines "" ;;
  (if content_cache_clean_local self then set_cache_local ∅ else ret tt) ;;;
  (if content_cache_clean_remote self then set_cache_remote ∅ else ret tt) ;;;
  ret new_lines.

End IncludePreprocessor.

(** ** Notions used by the statements *)

Import IncludePreprocessor.

(** The first character of [s] exists and is not white space. *)
Definition starts_nonspace (s : string) : bool :=
  match s with
  | String c _ => negb (Py.isspace c)
  | EmptyString => false
  end.

Definition Kind_eqb (a b : Kind) : bool :=
  match a, b with
  | Local, Local | Remote, Remote => true
  | _, _ => false
  end.

(** A call of the retrieval capability of kind [k] for [key]. *)
Definition is_retrieval (k : Kind) (key : string) (ev : Event) : bool :=
  match ev with
  | Retrieve k' key' _ _ => Kind_eqb k k' && String.eqb key key'
  | _ => false
  end.

(** A call of the retrieval capability that succeeded. *)
Definition is_success (k : Kind) (key : string) (ev : Event) : bool :=
  match ev with
  | Retrieve k' key' _ ok => Kind_eqb k k' && String.eqb key key' && ok
  | _ => false
  end.

Definition retrievals (k : Kind) (key : string) (tr : list Event) : nat :=
  length (List.filter (is_retrieval k key) tr).

Definition successes (k : Kind) (key : string) (tr : list Event) : nat :=
  length (List.filter (is_success k key) tr).

(** The cache of a kind. *)
Definition cache_of {T} (k : Kind) (st : State T) : gmap string (list string) :=
  match k with
  | Local => mdx_include_content_cache_local st
  | Remote => mdx_include_content_cache_remote st
  end.

(** The state [run] starts processing in: a new tracker. *)
Definition with_new_tracker {T} `{CyclicOps T} (st : State T) : State T :=
  {| mdx_include_content_cache_local := mdx_include_content_cache_local st;
     mdx_include_content_cache_remote := mdx_include_content_cache_remote st;
     cyclic := Cyclic_new;
     trace := trace st |}.

(** The state after the events [evs]. *)
Definition logged {T} (evs : list Event) (st : State T) : State T :=
  {| mdx_include_content_cache_local := mdx_include_content_cache_local st;
     mdx_include_content_cache_remote := mdx_include_content_cache_remote st;
     cyclic := cyclic st;
     trace := trace st ++ evs |}.

(** The state after [textl] is put under [key] in the cache of kind [k]. *)
Definition stored {T} (k : Kind) (key : string) (textl : list string)
    (st : State T) : State T :=
  match k with
  | Local =>
      {| mdx_include_content_cache_local :=
           <[key := textl]> (mdx_include_content_cache_local st);
         mdx_include_content_cache_remote := mdx_include_content_cache_remote st;
         cyclic := cyclic st;
         trace := trace st |}
  | Remote =>
      {| mdx_include_content_cache_local := mdx_include_content_cache_local st;
         mdx_include_content_cache_remote :=
           <[key := textl]> (mdx_include_content_cache_remote st);
         cyclic := cyclic st;
         trace := trace st |}
  end.

(** The two kinds side by side: the option that enables the cache, the
    retrieval capability, and the method that reads through the cache. *)
Definition cache_enabled (self : Config) (k : Kind) : bool :=
  match k with
  | Local => content_cache_local self
  | Remote => content_cache_remote self
  end.

Definition retrieve (host : Host) (k : Kind) (history : list Event)
    (key enc : string) : option string :=
  match k with
  | Local => read_file host history key enc
  | Remote => download host history key enc
  end.

Definition get_content_list {T} (host : Host) (self : Config) (k : Kind)
    (key enc : string) : M T (list string * bool) :=
  match k with
  | Local => get_local_content_list host self key enc
  | Remote => get_remote_content_list host self key enc
  end.

(** The lines of a body that was read or downloaded. *)
Definition body_lines (body : string) : list string :=
  Py.splitlines (body +:+ String "010" "").

(** The kind and the key of the target of a directive, as lines 306-339
    resolve them; [None] when the kind is not allowed. *)
Definition directive_target (host : Host) (self : Config) (parent : string)
    (m : Match) : option (Kind * string) :=
  let filename := expanduser host (g_path m) in
  if Py.truthy (url_netloc host filename) then
    if allow_remote self
    then Some (Remote, Py.rstrip_slash (url_unparse host filename))
    else None
  else if allow_local self
  then Some (Local, local_filename host self filename parent)
  else None.

(** The configured recursion of a kind. *)
Definition recurs_of (self : Config) (k : Kind) : option bool :=
  match k with
  | Local => recurs_local self
  | Remote => recurs_remote self
  end.

(** The match [m] with another path. *)
Definition with_path (path : string) (m : Match) : Match := {|
  m_start := m_start m; m_end := m_end m;
  g_escape := g_escape m; g_recursive := g_recursive m;
  g_strip_indent := g_strip_indent m; g_apply_indent := g_apply_indent m;
  g_path := path; g_lines := g_lines m; g_encoding := g_encoding m
|}.

(** With the cache of kind [k] in use: no key has more than one successful
    retrieval in the trace, and a key that has one is in the cache. *)
Definition fetched_once {T} (k : Kind) (st : State T) : Prop :=
  ∀ key,
    match cache_of k st !! key with
    | Some _ => successes k key (trace st) ≤ 1
    | None => successes k key (trace st) = 0
    end.

(** From [st0] to [st] no cache has lost or changed an entry, and what was
    stored in between is still there. *)
Definition keeps_entries {T} (st0 st : State T) : Prop :=
  mdx_include_content_cache_local st0 ⊆ mdx_include_content_cache_local st
  ∧ mdx_include_content_cache_remote st0 ⊆ mdx_include_content_cache_remote st
  ∧ ∃ evs, trace st = trace st0 ++ evs
           ∧ ∀ k key textl,
               CacheStore k key textl ∈ evs → cache_of k st !! key = Some textl.

(** The action [x] keeps the property [P] of the state, whatever its
    outcome. *)
Definition preserves {T A} (P : State T → Prop) (x : M T A) : Prop :=
  ∀ st, P st → P (fst (x st)).

Section Reaching.

Context {T : Type} `{CyclicOps T}.
Variable host : Host.
Variable self : Config.

(** The loops of [process_lines recur lines parent], started in [st],
    come without exception to match [m] of [line], with the state of the
    inner loop [acc] and the state [st'] of the preprocessor. *)
Definition arrives (recur : list string → string → M T (list string))
    (lines : list string) (parent : string) (st : State T)
    (line : string) (acc : nat * list string) (m : Match) (st' : State T)
  : Prop :=
  ∃ l1 l2 out st1 ms1 ms2,
    lines = l1 ++ line :: l2
    ∧ process_lines host self recur l1 parent st = (st1, Ok out)
    ∧ finditer host line = ms1 ++ m :: ms2
    ∧ for_each (process_match host self recur parent line) ms1 (0, []) st1
      = (st', Ok acc).

(** [reaches fuel lines parent st n parent' line acc m st']: the call
    [mdx_include_get_processed_lines(lines, parent)] started in [st] comes,
    directly or through inclusions that are expanded recursively, to match
    [m] of a line [line] of the document [parent'], in state [st'], with
    [n] levels of nesting left. *)
Inductive reaches : nat → list string → string → State T →
    nat → string → string → nat * list string → Match → State T → Prop :=
| reaches_here fuel lines parent st line acc m st' :
    arrives (mdx_include_get_processed_lines host self fuel)
      lines parent st line acc m st' →
    reaches (S fuel) lines parent st fuel parent line acc m st'
| reaches_inside fuel lines parent st line0 acc0 m0 st0 f st1
    n parent' line acc m st' :
    arrives (mdx_include_get_processed_lines host self fuel)
      lines parent st line0 acc0 m0 st0 →
    Py.truthy_opt (g_escape m0) = false →
    fetch_directive host self parent m0 st0 = (st1, Ok (Some f)) →
    effective_recursion self (f_recursive f) (g_recursive m0) = true →
    Cyclic_is_cyclic (f_key f) (cyclic st1) = false →
    reaches fuel (f_textl f) (f_key f) st1 n parent' line acc m st' →
    reaches (S fuel) lines parent st n parent' line acc m st'.

End Reaching.

(** ** A tracker and a host for the examples *)

Module Sample.

  (** Modelled from the spec: the tracker of package [cyclic], which is not
      part of this repository.  Per key it holds the ancestors seen so far;
      [add] merges in the parent and the ancestors of the parent, and a key
      is cyclic when it is among its own ancestors. *)
Definition tracker_add (child parent : string)
    (root : gmap string (list string)) : gmap string (list string) :=
  <[child := list_union (default [] (root !! child))
               (parent :: default [] (root !! parent))]> root.

Definition tracker_is_cyclic (child : string)
    (root : gmap string (list string)) : bool :=
  bool_decide (child ∈ default [] (root !! child)).

Definition tracker_root_str (child : string)
    (root : gmap string (list string)) : string :=
  String.concat ", " (default [] (root !! child)).

#[global] Instance tracker : CyclicOps (gmap string (list string)) := {|
  Cyclic_new := ∅;
  Cyclic_add := tracker_add;
  Cyclic_is_cyclic := tracker_is_cyclic;
  Cyclic_root_str := tracker_root_str
|}.

Fixpoint table_get {A} (tbl : list (string * A)) (k : string) : option A :=
  match tbl with
  | [] => None
  | (k', v) :: r => if String.eqb k k' then Some v else table_get r k
  end.

Fixpoint starts_with (p s : string) : bool :=
  match p, s with
  | EmptyString, _ => true
  | String a p', String b s' => Ascii.eqb a b && starts_with p' s'
  | String _ _, EmptyString => false
  end.

(** A decimal number. *)
Fixpoint parse_nat_from (acc : nat) (s : string) : option nat :=
  match s with
  | EmptyString => Some acc
  | String c r =>
      match Ascii.is_nat c with
      | Some d => parse_nat_from (10 * acc + d) r
      | None => None
      end
  end.

Definition parse_nat (s : string) : option nat :=
  match s with
  | EmptyString => None
  | _ => parse_nat_from 0 s
  end.

(** Modelled from the spec: [RowSlice.slice] of package [rcslice], which is
    not part of this repository, for a range specification that is one
    1-based line number; an index out of bounds selects nothing, and any
    other specification is left to the package and keeps the lines as
    they are here. *)
Definition slice_one (lines : list string) (spec : string) : list string :=
  match parse_nat spec with
  | Some (S n) => take 1 (drop n lines)
  | Some 0 => []
  | None => lines
  end.

(** [os.path.expanduser] with [HOME=/home/user] and no other account. *)
Definition home_expanduser (p : string) : string :=
  if String.eqb p "~" then "/home/user"
  else if starts_with "~/" p then "/home/user" +:+ Py.from 1 p
  else p.

(** [posixpath.isabs]. *)
Definition posix_isabs (p : string) : bool := starts_with "/" p.

(** [posixpath.join] of two components, the first without a final
    slash. *)
Definition posix_join (a b : string) : string :=
  if posix_isabs b then b
  else if Py.truthy a then a +:+ "/" +:+ b else b.

(** [posixpath.normpath] on the paths of the examples: a leading [./] is
    dropped. *)
Definition posix_normpath (p : string) : string :=
  if starts_with "./" p then Py.from 2 p else p.

(** [posixpath.dirname] of a relative path: the part before the last
    slash, empty when there is none. *)
Fixpoint before_last_slash (p : string) : option string :=
  match p with
  | EmptyString => None
  | String c r =>
      match before_last_slash r with
      | Some d => Some (String c d)
      | None => if Ascii.eqb c "/"%char then Some EmptyString else None
      end
  end.

Definition posix_dirname (p : string) : string :=
  default "" (before_last_slash p).

(** A host given by tables: the matches of the compiled pattern on each
    line of the example, the network locations of its URLs, and the
    contents of the files and pages that exist.  Nothing changes during a
    run, and [utf-8] is the only encoding. *)
Definition host (matches : list (string * list Match))
    (netlocs files pages : list (string * string)) : Host := {|
  finditer := λ line, default [] (table_get matches line);
  row_slice := slice_one;
  expanduser := home_expanduser;
  isabs := posix_isabs;
  normpath := posix_normpath;
  path_join := posix_join;
  dirname := posix_dirname;
  url_netloc := λ p, default "" (table_get netlocs p);
  url_unparse := λ p, p;
  found_encoding := λ e, String.eqb e "utf_8";
  read_file := λ _ filename _, table_get files filename;
  download := λ _ url _, table_get pages url
|}.

(** The groups of a directive without options: [strip_indent] and
    [apply_indent] match the empty string, the others take no part. *)
Definition plain (s e : nat) (path : string) : Match := {|
  m_start := s; m_end := e;
  g_escape := None; g_recursive := None;
  g_strip_indent := Some ""; g_apply_indent := Some "";
  g_path := path; g_lines := None; g_encoding := None
|}.

Definition with_escape (m : Match) : Match := {|
  m_start := m_start m; m_end := m_end m;
  g_escape := Some "\"; g_recursive := g_recursive m;
  g_strip_indent := g_strip_indent m; g_apply_indent := g_apply_indent m;
  g_path := g_path m; g_lines := g_lines m; g_encoding := g_encoding m
|}.

Definition with_recursive (r : string) (m : Match) : Match := {|
  m_start := m_start m; m_end := m_end m;
  g_escape := g_escape m; g_recursive := Some r;
  g_strip_indent := g_strip_indent m; g_apply_indent := g_apply_indent m;
  g_path := g_path m; g_lines := g_lines m; g_encoding := g_encoding m
|}.

Definition with_strip_indent (m : Match) : Match := {|
  m_start := m_start m; m_end := m_end m;
  g_escape := g_escape m; g_recursive := g_recursive m;
  g_strip_indent := Some "<"; g_apply_indent := g_apply_indent m;
  g_path := g_path m; g_lines := g_lines m; g_encoding := g_encoding m
|}.

Definition with_apply_indent (m : Match) : Match := {|
  m_start := m_start m; m_end := m_end m;
  g_escape := g_escape m; g_recursive := g_recursive m;
  g_strip_indent := g_strip_indent m; g_apply_indent := Some ">";
  g_path := g_path m; g_lines := g_lines m; g_encoding := g_encoding m
|}.

Definition with_lines (spec : string) (m : Match) : Match := {|
  m_start := m_start m; m_end := m_end m;
  g_escape := g_escape m; g_recursive := g_recursive m;
  g_strip_indent := g_strip_indent m; g_apply_indent := g_apply_indent m;
  g_path := g_path m; g_lines := Some spec; g_encoding := g_encoding m
|}.

(** A fresh preprocessor: empty caches, nothing done yet. *)
Definition fresh : State (gmap string (list string)) := {|
  mdx_include_content_cache_local := ∅;
  mdx_include_content_cache_remote := ∅;
  cyclic := ∅;
  trace := []
|}.

End Sample.


(** ** Example documents *)

Module Examples.

(** Two files that include each other, and a document that includes the
    first. *)
Definition cycle_host : Host :=
  Sample.host
    [("{! a.md !}", [Sample.plain 0 10 "a.md"]);
     ("{! b.md !}", [Sample.plain 0 10 "b.md"])]
    []
    [("a.md", "{! b.md !}"); ("b.md", "{! a.md !}")]
    [].

Definition cycle_document : list string := ["{! a.md !}"].

(** The default options, with both caches cleaned after a run. *)
Definition cleaning_config : Config := {|
  base_path := "."; encoding := "utf-8";
  allow_local := true; allow_remote := true;
  truncate_on_failure := true;
  recurs_local := Some true; recurs_remote := Some false;
  syntax_recurs_on := "+"; syntax_recurs_off := "-";
  content_cache_local := true; content_cache_remote := true;
  content_cache_clean_local := true; content_cache_clean_remote := true;
  allow_circular_inclusion := false;
  recursive_relative_path := false
|}.

(** The default options, with circular inclusion allowed. *)
Definition circular_config : Config := {|
  base_path := "."; encoding := "utf-8";
  allow_local := true; allow_remote := true;
  truncate_on_failure := true;
  recurs_local := Some true; recurs_remote := Some false;
  syntax_recurs_on := "+"; syntax_recurs_off := "-";
  content_cache_local := true; content_cache_remote := true;
  content_cache_clean_local := false; content_cache_clean_remote := false;
  allow_circular_inclusion := true;
  recursive_relative_path := false
|}.

(** The default options, with remote content expanded recursively. *)
Definition remote_recursive_config : Config := {|
  base_path := "."; encoding := "utf-8";
  allow_local := true; allow_remote := true;
  truncate_on_failure := true;
  recurs_local := Some true; recurs_remote := Some true;
  syntax_recurs_on := "+"; syntax_recurs_off := "-";
  content_cache_local := true; content_cache_remote := true;
  content_cache_clean_local := false; content_cache_clean_remote := false;
  allow_circular_inclusion := false;
  recursive_relative_path := false
|}.

(** A page that includes a local file, and a document that includes the
    page with the toggle [+]. *)
Definition toggle_host : Host :=
  Sample.host
    [("{!+ http://h/a !}",
      [Sample.with_recursive "+" (Sample.plain 0 17 "http://h/a")]);
     ("{! b.md !}", [Sample.plain 0 10 "b.md"])]
    [("http://h/a", "h")]
    [("b.md", "B")]
    [("http://h/a", "{! b.md !}")].

Definition toggle_document : list string := ["{!+ http://h/a !}"].

(** A host without any file or page, and an escaped directive with the
    strip-indent marker. *)
Definition escaped_line : string := "\{!< nowhere.md !}".

Definition escaped_match : Match :=
  Sample.with_escape (Sample.with_strip_indent (Sample.plain 0 18 "nowhere.md")).

Definition empty_host : Host :=
  Sample.host
    [(escaped_line, [escaped_match]);
     ("{! missing.md !}", [Sample.plain 0 16 "missing.md"])]
    [] [] [].

(** The default options, with a failed directive kept in the text. *)
Definition keeping_config : Config := {|
  base_path := "."; encoding := "utf-8";
  allow_local := true; allow_remote := true;
  truncate_on_failure := false;
  recurs_local := Some true; recurs_remote := Some false;
  syntax_recurs_on := "+"; syntax_recurs_off := "-";
  content_cache_local := true; content_cache_remote := true;
  content_cache_clean_local := false; content_cache_clean_remote := false;
  allow_circular_inclusion := false;
  recursive_relative_path := false
|}.

(** A file of one line and a file of two lines; a line whose second
    directive asks for apply-indent, and a line whose only directive, at
    column 4, asks for it. *)
Definition second_apply_match : Match :=
  Sample.with_apply_indent (Sample.plain 11 22 "b.md").

Definition margin_apply_match : Match :=
  Sample.with_apply_indent (Sample.plain 4 15 "b.md").

Definition indent_host : Host :=
  Sample.host
    [("{! a.md !} {!> b.md !}", [Sample.plain 0 10 "a.md"; second_apply_match]);
     ("    {!> b.md !}", [margin_apply_match]);
     ("    {! b.md !}", [Sample.plain 4 14 "b.md"])]
    []
    [("a.md", "A"); ("b.md", "B1" +:+ String "010" "B2")]
    [].

(** An empty file, included with the strip-indent marker. *)
Definition blank_host : Host :=
  Sample.host
    [("{!< empty.md !}",
      [Sample.with_strip_indent (Sample.plain 0 15 "empty.md")])]
    []
    [("empty.md", "")]
    [].

(** A file in the home directory, included by a path that starts with a
    tilde, under a base path of its own. *)
Definition tilde_match : Match := Sample.plain 0 16 "~/notes.md".

Definition tilde_host : Host :=
  Sample.host
    [("{! ~/notes.md !}", [tilde_match])]
    []
    [("/home/user/notes.md", "N")]
    [].

Definition docs_config : Config := {|
  base_path := "docs"; encoding := "utf-8";
  allow_local := true; allow_remote := true;
  truncate_on_failure := true;
  recurs_local := Some true; recurs_remote := Some false;
  syntax_recurs_on := "+"; syntax_recurs_off := "-";
  content_cache_local := true; content_cache_remote := true;
  content_cache_clean_local := false; content_cache_clean_remote := false;
  allow_circular_inclusion := false;
  recursive_relative_path := true
|}.

(** A file of two lines, included with the line range [1]; a missing file
    included twice on one line. *)
Definition range_match : Match :=
  Sample.with_lines "1" (Sample.plain 0 19 "two.md").

Definition range_host : Host :=
  Sample.host
    [("{! two.md [ln:1] !}", [range_match]);
     ("{! gone.md !}{! gone.md !}",
      [Sample.plain 0 13 "gone.md"; Sample.plain 13 26 "gone.md"]);
     ("{! two.md !}{! two.md !}",
      [Sample.plain 0 12 "two.md"; Sample.plain 12 24 "two.md"])]
    []
    [("two.md", "first" +:+ String "010" "second")]
    [].

(** The default options, without the cache of local files. *)
Definition uncached_config : Config := {|
  base_path := "."; encoding := "utf-8";
  allow_local := true; allow_remote := true;
  truncate_on_failure := true;
  recurs_local := Some true; recurs_remote := Some false;
  syntax_recurs_on := "+"; syntax_recurs_off := "-";
  content_cache_local := false; content_cache_remote := true;
  content_cache_clean_local := false; content_cache_clean_remote := false;
  allow_circular_inclusion := false;
  recursive_relative_path := false
|}.

End Examples.

(** ** [IncludeExtension]: the options and their validation *)

Module IncludeExtension.

(** The values an option can be given: [None], a [bool], an [int], a [str]
    or a list of [str]. *)
Inductive PyVal :=
| VNone
| VBool (b : bool)
| VInt (n : Z)
| VStr (s : string)
| VList (l : list string).

Inductive PyType := TNone | TBool | TInt | TStr | TList.

(** [type(v)]. *)
Definition type (v : PyVal) : PyType :=
  match v with
  | VNone => TNone
  | VBool _ => TBool
  | VInt _ => TInt
  | VStr _ => TStr
  | VList _ => TList
  end.

(** [isinstance(v, t)]; [bool] is a subclass of [int]. *)
Definition isinstance (v : PyVal) (t : PyType) : bool :=
  match v, t with
  | VNone, TNone => true
  | VBool _, TBool => true
  | VBool _, TInt => true
  | VInt _, TInt => true
  | VStr _, TStr => true
  | VList _, TList => true
  | _, _ => false
  end.

(** [v is None]. *)
Definition is_none (v : PyVal) : bool :=
  match v with VNone => true | _ => false end.

(** The two exceptions of [setConfig]: the key is not an option, or the
    value has the wrong type. *)
Inductive ConfigExn :=
| KeyError (key : string)
| TypeError (key : string) (value : PyVal).

(** [self.config]: per option its value and its description. *)
Definition setConfig (key : string) (value : PyVal)
    (config : gmap string (PyVal * string))
  : ConfigExn + gmap string (PyVal * string) :=
  if is_none value || isinstance value TBool then
    match config !! key with
    | Some (current, description) =>
        if is_none current || isinstance current TBool
        then inr (<[key := (value, description)]> config)
        else inl (TypeError key value)
    | None => inl (KeyError key)
    end
  else
    match config !! key with
    | Some (current, description) =>
        if isinstance value (type current)
        then inr (<[key := (value, description)]> config)
        else inl (TypeError key value)
    | None => inl (KeyError key)
    end.

(** The dictionary of [__init__], lines 91-125. *)
Definition default_options : gmap string (PyVal * string) :=
  list_to_map
    [("base_path", (VStr ".", "Base path from where relative paths are calculated"));
     ("encoding", (VStr "utf-8", "Encoding of the files."));
     ("allow_local", (VBool true, "Allow including local files."));
     ("allow_remote", (VBool true, "Allow including remote files."));
     ("truncate_on_failure",
      (VBool true, "Truncate the include markdown if failed to get the content."));
     ("recurs_local",
      (VBool true, "Whether the inclusion is recursive for local files."));
     ("recurs_remote",
      (VBool false, "Whether the inclusion is recursive for remote files."));
     ("syntax_left", (VStr "\{!", "The left mandatory part of the syntax"));
     ("syntax_right", (VStr "!\}", "The right mandatory part of the syntax"));
     ("syntax_delim",
      (VStr "\|", "Delemiter used to separate path from encoding"));
     ("syntax_recurs_on", (VStr "+", "Character to specify recurs on"));
     ("syntax_recurs_off", (VStr "-", "Character to specify recurs off"));
     ("syntax_strip_indent",
      (VStr "<", "Strip indentation common to all included lines"));
     ("syntax_apply_indent",
      (VStr ">", "Character to specify apply indentation"));
     ("content_cache_local",
      (VBool true, "Whether to cache content for local files"));
     ("content_cache_remote",
      (VBool true, "Whether to cache content for remote files"));
     ("content_cache_clean_local",
      (VBool false,
       "Whether to clean content cache for local files after processing all the includes."));
     ("content_cache_clean_remote",
      (VBool false,
       "Whether to clean content cache for remote files after processing all the includes."));
     ("allow_circular_inclusion",
      (VBool false, "Whether to allow circular inclusion."));
     ("line_slice_separator",
      (VList [EmptyString; EmptyString],
       "A list of lines that will be used to separate parts specified by line slice syntax: 1-2,3-4,5 etc."));
     ("recursive_relative_path",
      (VBool false,
       "Whether include paths inside recursive files should be relative to the parent file path"))].

(** [for k, v in configs.items(): self.setConfig(k, v)]: the first
    exception ends the loop. *)
Fixpoint set_all (configs : list (string * PyVal))
    (config : gmap string (PyVal * string))
  : ConfigExn + gmap string (PyVal * string) :=
  match configs with
  | [] => inr config
  | (k, v) :: rest =>
      match setConfig k v config with
      | inr config' => set_all rest config'
      | inl e => inl e
      end
  end.

(** [__init__(configs)] up to the construction of the pattern. *)
Definition init (configs : list (string * PyVal))
  : ConfigExn + gmap string (PyVal * string) :=
  set_all configs default_options.

(** The classes of values that [setConfig] tells apart: [None] and [bool]
    stand for each other, every other type stands for itself. *)
Inductive ValClass := CFlag | CInt | CStr | CList.

Definition class (v : PyVal) : ValClass :=
  match v with
  | VNone | VBool _ => CFlag
  | VInt _ => CInt
  | VStr _ => CStr
  | VList _ => CList
  end.

#[global] Instance ValClass_eq_dec : EqDecision ValClass.
Proof. solve_decision. Defined.

(** The last value given for [key] in [configs], if any. *)
Fixpoint last_given (key : string) (configs : list (string * PyVal))
  : option PyVal :=
  match configs with
  | [] => None
  | (k, v) :: rest =>
      match last_given key rest with
      | Some v' => Some v'
      | None => if String.eqb k key then Some v else None
      end
  end.

End IncludeExtension.

(** ** Further notions used by the statements *)

(** [y] does what [x] does whenever [x] ends otherwise than by the bound on
    the nesting. *)
Definition refines {T A} (x y : M T A) : Prop :=
  ∀ st st' r, x st = (st', r) → r ≠ Raise OutOfFuel → y st = (st', r).

(** Every exception that [x] raises satisfies [Q]. *)
Definition raises_only {T A} (Q : Exn → Prop) (x : M T A) : Prop :=
  ∀ st st' e, x st = (st', Raise e) → Q e.

(** The lines one after the other, without line breaks. *)
Fixpoint flat (lines : list string) : string :=
  match lines with
  | [] => EmptyString
  | l :: r => l +:+ flat r
  end.

(** The match [m] with another encoding group. *)
Definition with_encoding (enc : option string) (m : Match) : Match := {|
  m_start := m_start m; m_end := m_end m;
  g_escape := g_escape m; g_recursive := g_recursive m;
  g_strip_indent := g_strip_indent m; g_apply_indent := g_apply_indent m;
  g_path := g_path m; g_lines := g_lines m; g_encoding := enc
|}.

(** The number of white-space characters a string starts with. *)
Fixpoint leading_spaces (s : string) : nat :=
  match s with
  | String c r => if Py.isspace c then S (leading_spaces r) else 0
  | EmptyString => 0
  end.

(** Some character of the string is not white space. *)
Fixpoint nonblank (s : string) : bool :=
  match s with
  | String c r => negb (Py.isspace c) || nonblank r
  | EmptyString => false
  end.

(** Every character of the string is white space. *)
Definition all_space (s : string) : bool := negb (nonblank s).

(** The option that allows the targets of a kind. *)
Definition allowed (self : Config) (k : Kind) : bool :=
  match k with
  | Local => allow_local self
  | Remote => allow_remote self
  end.

(** The pieces of [line] before each of the matches [ms], from offset [c]
    on. *)
Fixpoint gaps (line : string) (c : nat) (ms : list Match) : list string :=
  match ms with
  | [] => []
  | m :: r => Py.slice c (m_start m) line :: gaps line (m_end m) r
  end.

(** The offset after the last of the matches [ms]. *)
Definition last_end (c : nat) (ms : list Match) : nat :=
  foldl (λ _ m, m_end m) c ms.

(** What an exception of the expansion tells about the options and the
    document: the [RuntimeError] comes with circular inclusion not allowed,
    the [ValueError] with a match of the pattern that carries the
    strip-indent marker. *)
Definition explained (host : Host) (self : Config) (e : Exn) : Prop :=
  match e with
  | RuntimeError _ => allow_circular_inclusion self = false
  | ValueError _ =>
      ∃ line m, m ∈ finditer host line
                ∧ Py.truthy_opt (g_strip_indent m) = true
  | OutOfFuel => True
  end.

(** The state with another tracker. *)
Definition with_tracker {T} (t : T) (st : State T) : State T :=
  {| mdx_include_content_cache_local := mdx_include_content_cache_local st;
     mdx_include_content_cache_remote := mdx_include_content_cache_remote st;
     cyclic := t;
     trace := trace st |}.

(** ** Further examples *)

Module MoreExamples.

(** Options as a user may give them: no recursion default for local files,
    and another base path. *)
Definition given_options : list (string * IncludeExtension.PyVal) :=
  [("recurs_local", IncludeExtension.VNone);
   ("base_path", IncludeExtension.VStr "docs");
   ("recurs_local", IncludeExtension.VBool false)].

(** Two of the options, as [__init__] has them, and what the loop of
    [__init__] makes of them. *)
Definition small_options : gmap string (IncludeExtension.PyVal * string) :=
  list_to_map
    [("base_path",
      (IncludeExtension.VStr ".",
       "Base path from where relative paths are calculated"));
     ("recurs_local",
      (IncludeExtension.VBool true,
       "Whether the inclusion is recursive for local files."))].

Definition small_options_after
  : gmap string (IncludeExtension.PyVal * string) :=
  match IncludeExtension.set_all given_options small_options with
  | inr config => config
  | inl _ => ∅
  end.

(** The default options, with remote targets not allowed. *)
Definition no_remote_config : Config := {|
  base_path := "."; encoding := "utf-8";
  allow_local := true; allow_remote := false;
  truncate_on_failure := true;
  recurs_local := Some true; recurs_remote := Some false;
  syntax_recurs_on := "+"; syntax_recurs_off := "-";
  content_cache_local := true; content_cache_remote := true;
  content_cache_clean_local := false; content_cache_clean_remote := false;
  allow_circular_inclusion := false;
  recursive_relative_path := false
|}.

(** The default options, with no target allowed. *)
Definition nothing_allowed_config : Config := {|
  base_path := "."; encoding := "utf-8";
  allow_local := false; allow_remote := false;
  truncate_on_failure := true;
  recurs_local := Some true; recurs_remote := Some false;
  syntax_recurs_on := "+"; syntax_recurs_off := "-";
  content_cache_local := true; content_cache_remote := true;
  content_cache_clean_local := false; content_cache_clean_remote := false;
  allow_circular_inclusion := false;
  recursive_relative_path := false
|}.

(** The default options, with recursion switched off for both kinds. *)
Definition flat_config : Config := {|
  base_path := "."; encoding := "utf-8";
  allow_local := true; allow_remote := true;
  truncate_on_failure := true;
  recurs_local := Some false; recurs_remote := Some false;
  syntax_recurs_on := "+"; syntax_recurs_off := "-";
  content_cache_local := true; content_cache_remote := true;
  content_cache_clean_local := false; content_cache_clean_remote := false;
  allow_circular_inclusion := false;
  recursive_relative_path := false
|}.

End MoreExamples.

(** ** [os.path] on POSIX *)

Module Posix.

(** What [posixpath.expanduser] reads from the process: the variable
    [HOME], the home directory of the current user in the password
    database, and the home directory of a user by name; [None] is a
    variable that is not set or a [KeyError] of [pwd]. *)
Record Env := {
  env_HOME : option string;
  pw_dir_of_uid : option string;
  pw_dir_of_name : string → option string
}.

(** [s.find("/")], or [len(s)] when there is none. *)
Fixpoint find_slash (s : string) : nat :=
  match s with
  | EmptyString => 0
  | String c r => if Ascii.eqb c "/"%char then 0 else S (find_slash r)
  end.

(** The home directory that stands for the tilde prefix of [~rest]. *)
Definition userhome (env : Env) (rest : string) : option string :=
  match Py.upto (find_slash rest) rest with
  | EmptyString =>
      match env_HOME env with
      | Some home => Some home
      | None => pw_dir_of_uid env
      end
  | name => pw_dir_of_name env name
  end.

(** [posixpath.expanduser(path)] for a [str]. *)
Definition expanduser (env : Env) (path : string) : string :=
  match path with
  | String c rest =>
      if Ascii.eqb c "~"%char then
        match userhome env rest with
        | Some home =>
            let expanded :=
              Py.rstrip_slash home +:+ Py.from (find_slash rest) rest in
            if Py.truthy expanded then expanded else "/"
        | None => path
        end
      else path
  | EmptyString => path
  end.

(** [posixpath.isabs(s)]. *)
Definition isabs (s : string) : bool :=
  match s with
  | String c _ => Ascii.eqb c "/"%char
  | EmptyString => false
  end.

End Posix.

(** ** Examples for the corner cases *)

Module Cases.

(** A process with [HOME=/home/user] and no other account. *)
Definition env : Posix.Env := {|
  Posix.env_HOME := Some "/home/user";
  Posix.pw_dir_of_uid := Some "/home/user";
  Posix.pw_dir_of_name := λ _, None
|}.

(** The host of the tables, with [os.path.expanduser] and [os.path.isabs]
    of POSIX for [env], every encoding of [encodings], and a file that
    cannot be decoded as [utf-16]. *)
Definition host (matches : list (string * list Match))
    (files : list (string * string)) : Host := {|
  finditer := λ line, default [] (Sample.table_get matches line);
  row_slice := Sample.slice_one;
  expanduser := Posix.expanduser env;
  isabs := Posix.isabs;
  normpath := Sample.posix_normpath;
  path_join := Sample.posix_join;
  dirname := Sample.posix_dirname;
  url_netloc := λ _, EmptyString;
  url_unparse := λ p, p;
  found_encoding := λ e, String.eqb e "utf_8" || String.eqb e "utf_16";
  read_file := λ _ filename enc,
    if String.eqb enc "utf-16" then None else Sample.table_get files filename;
  download := λ _ _ _, None
|}.

Definition with_encoding_group (enc : string) (m : Match) : Match := {|
  m_start := m_start m; m_end := m_end m;
  g_escape := g_escape m; g_recursive := g_recursive m;
  g_strip_indent := g_strip_indent m; g_apply_indent := g_apply_indent m;
  g_path := g_path m; g_lines := g_lines m; g_encoding := Some enc
|}.

(** A file whose first line includes the second line of the file itself,
    an empty line, with the strip-indent marker. *)
Definition blank_line_match : Match :=
  Sample.with_strip_indent (Sample.with_lines "2" (Sample.plain 0 18 "a.md")).

Definition blank_cycle_host : Host :=
  host
    [("{! a.md !}", [Sample.plain 0 10 "a.md"]);
     ("{!< a.md [ln:2] !}", [blank_line_match])]
    [("a.md", "{!< a.md [ln:2] !}" +:+ String "010" EmptyString)].

(** A pattern compiled with [syntax_left] set to [\s\{!]: the text of the
    match after the escape character starts with a blank. *)
Definition spaced_line : string := "\ {!< x !}".

Definition spaced_match : Match :=
  Sample.with_escape (Sample.with_strip_indent (Sample.plain 0 10 "x")).

Definition spaced_host : Host := host [(spaced_line, [spaced_match])] [].

(** An escaped directive and a directive for a missing file, each inside
    a longer line. *)
Definition inner_escaped_line : string := "see \{!< nowhere.md !} here".

Definition inner_escaped_match : Match :=
  Sample.with_escape (Sample.with_strip_indent (Sample.plain 4 22 "nowhere.md")).

Definition inner_missing_line : string := "a {! missing.md !} b".

Definition inner_missing_match : Match := Sample.plain 2 18 "missing.md".

(** A file that includes itself and asks for [utf-16]. *)
Definition utf16_match : Match :=
  with_encoding_group "utf-16" (Sample.plain 0 19 "a.md").

(** The second path names a user that does not exist. *)
Definition unknown_user_match : Match := Sample.plain 0 22 "~nosuchuser/x.md".

Definition corner_host : Host :=
  host
    [(inner_escaped_line, [inner_escaped_match]);
     (inner_missing_line, [inner_missing_match]);
     ("{! a.md !}", [Sample.plain 0 10 "a.md"]);
     ("{! a.md | utf-16 !}", [utf16_match]);
     ("{! ~/notes.md !}", [Examples.tilde_match]);
     ("{! ~nosuchuser/x.md !}", [unknown_user_match])]
    [("a.md", "{! a.md | utf-16 !}");
     ("/home/user/notes.md", "N");
     ("docs/~nosuchuser/x.md", "X")].


End Cases.

(** ** The monad and the loops *)

Section Loops.

Context {T : Type}.

Lemma bind_Ok {A B} (x : M T A) (f : A → M T B) st st' a :
  x st = (st', Ok a) → bind x f st = f a st'.
Proof. intros Hx. unfold bind. by rewrite Hx. Qed.

Lemma bind_Raise {A B} (x : M T A) (f : A → M T B) st st' e :
  x st = (st', Raise e) → bind x f st = (st', Raise e).
Proof. intros Hx. unfold bind. by rewrite Hx. Qed.

Lemma bind_inv_Ok {A B} (x : M T A) (f : A → M T B) st st' b :
  bind x f st = (st', Ok b) →
  ∃ st1 a, x st = (st1, Ok a) ∧ f a st1 = (st', Ok b).
Proof.
  unfold bind. destruct (x st) as [st1 [a|e]]; [eauto | discriminate].
Qed.

Lemma for_each_app {A B} (f : B → A → M T B) xs ys acc st :
  for_each f (xs ++ ys) acc st
  = bind (for_each f xs acc) (for_each f ys) st.
Proof.
  revert acc st. induction xs as [|x xs IH]; intros acc st; simpl.
  - reflexivity.
  - unfold bind. destruct (f acc x st) as [st1 [acc1|e]]; [|reflexivity].
    rewrite IH. reflexivity.
Qed.

(** An exception raised by the body leaves the loop. *)
Lemma for_each_raise {A B} (f : B → A → M T B) xs1 x xs2 acc st st1 acc1 st2 e :
  for_each f xs1 acc st = (st1, Ok acc1) →
  f acc1 x st1 = (st2, Raise e) →
  for_each f (xs1 ++ x :: xs2) acc st = (st2, Raise e).
Proof.
  intros H1 H2. rewrite for_each_app. rewrite (bind_Ok _ _ _ _ _ H1).
  simpl. by rewrite (bind_Raise _ _ _ _ _ H2).
Qed.

(** What every iteration preserves, the loop preserves. *)
Lemma for_each_preserves {A B} (P : State T → Prop) (f : B → A → M T B) :
  (∀ acc x st, P st → P (fst (f acc x st))) →
  ∀ xs acc st, P st → P (fst (for_each f xs acc st)).
Proof.
  intros Hf xs. induction xs as [|x xs IH]; intros acc st HP; simpl.
  - exact HP.
  - unfold bind. specialize (Hf acc x st HP).
    destruct (f acc x st) as [st1 [acc1|e]]; simpl in *; auto.
Qed.

End Loops.

Section Propagation.

Context {T : Type} `{CyclicOps T}.
Variable host : Host.
Variable self : Config.

Lemma get_recursive_content_list_effective recur textl filename parent
    recursive recurse_state :
  get_recursive_content_list self recur textl filename parent recursive recurse_state
  = if effective_recursion self recursive recurse_state
    then mdx_include_get_cyclic_safe_processed_line_list self recur textl filename parent
    else ret textl.
Proof. destruct recursive as [[]|]; reflexivity. Qed.

Lemma include_directive_fetch recur parent m st :
  include_directive host self recur parent m st
  = bind (fetch_directive host self parent m)
      (λ f, match f with
            | Some f =>
                textl <- get_recursive_content_list self recur (f_textl f)
                           (f_key f) parent (f_recursive f) (g_recursive m) ;;
                ret (textl, f_stat f)
            | None => ret ([], false)
            end) st.
Proof.
  unfold include_directive, fetch_directive.
  destruct (Py.truthy _).
  - destruct (allow_remote self); [|reflexivity].
    unfold bind. destruct (cyclic_add _ _ st) as [st1 [[]|e]]; [|reflexivity].
    destruct (get_remote_content_list _ _ _ _ st1) as [st2 [r|e]]; reflexivity.
  - destruct (allow_local self); [|reflexivity].
    unfold bind. destruct (cyclic_add _ _ st) as [st1 [[]|e]]; [|reflexivity].
    destruct (get_local_content_list _ _ _ _ st1) as [st2 [r|e]]; reflexivity.
Qed.

(** An exception raised while a match is processed leaves both loops. *)
Lemma arrives_raise recur lines parent st line acc m st2 st3 e :
  arrives host self recur lines parent st line acc m st2 →
  process_match host self recur parent line acc m st2 = (st3, Raise e) →
  process_lines host self recur lines parent st = (st3, Raise e).
Proof.
  intros (l1 & l2 & out & st1 & ms1 & ms2 & -> & Hl1 & Hms & Hms1) Hm.
  unfold process_lines in *.
  eapply for_each_raise; [exact Hl1|].
  unfold process_line. rewrite Hms.
  eapply bind_Raise, for_each_raise; eassumption.
Qed.

(** A directive that is expanded recursively passes on the exception of
    the nested call. *)
Lemma process_match_nested_raise recur parent line acc m st f st1 st2 e :
  Py.truthy_opt (g_escape m) = false →
  fetch_directive host self parent m st = (st1, Ok (Some f)) →
  effective_recursion self (f_recursive f) (g_recursive m) = true →
  Cyclic_is_cyclic (f_key f) (cyclic st1) = false →
  recur (f_textl f) (f_key f) st1 = (st2, Raise e) →
  process_match host self recur parent line acc m st = (st2, Raise e).
Proof.
  intros Hesc Hf Heff Hcyc Hrec.
  unfold process_match. apply bind_Raise.
  unfold match_content. rewrite Hesc. simpl. apply bind_Raise.
  rewrite include_directive_fetch. rewrite (bind_Ok _ _ _ _ _ Hf).
  apply bind_Raise. rewrite get_recursive_content_list_effective, Heff.
  unfold mdx_include_get_cyclic_safe_processed_line_list.
  unfold bind, get_state. rewrite Hcyc. simpl. exact Hrec.
Qed.

(** An exception raised at a match that the expansion reaches is the
    outcome of the outermost call. *)
Lemma reaches_raise fuel lines parent st n parent' line acc m st2 st3 e :
  reaches host self fuel lines parent st n parent' line acc m st2 →
  process_match host self (mdx_include_get_processed_lines host self n)
    parent' line acc m st2 = (st3, Raise e) →
  mdx_include_get_processed_lines host self fuel lines parent st
  = (st3, Raise e).
Proof.
  induction 1 as [fuel lines parent st line acc m st' Harr
                 |fuel lines parent st line0 acc0 m0 st0 f st1 n parent' line
                    acc m st' Harr Hesc Hf Heff Hcyc _ IH]; intros Hm.
  - simpl. eapply arrives_raise; eassumption.
  - simpl. eapply arrives_raise; [exact Harr|].
    eapply process_match_nested_raise; eauto.
Qed.

End Propagation.

(** ** What the whole expansion preserves *)

Section Preservation.

Context {T : Type} `{CyclicOps T}.
Variable host : Host.
Variable self : Config.
Variable P : State T → Prop.

Local Abbreviation preserves := (preserves P).

Hypothesis P_cyclic_add :
  ∀ filename parent st, P st → P (fst (cyclic_add filename parent st)).
Hypothesis P_get_local :
  ∀ filename enc st,
    P st → P (fst (get_local_content_list host self filename enc st)).
Hypothesis P_get_remote :
  ∀ filename enc st,
    P st → P (fst (get_remote_content_list host self filename enc st)).

Lemma preserves_ret {A} (a : A) : preserves (ret a).
Proof. intros st HP. exact HP. Qed.

Lemma preserves_raise {A} e : preserves (@raise T A e).
Proof. intros st HP. exact HP. Qed.

Lemma preserves_bind {A B} (x : M T A) (f : A → M T B) :
  preserves x → (∀ a, preserves (f a)) → preserves (bind x f).
Proof.
  intros Hx Hf st HP. unfold bind. specialize (Hx st HP).
  destruct (x st) as [st1 [a|e]]; simpl in *; [by apply Hf | done].
Qed.

Lemma preserves_fetch_directive parent m :
  preserves (fetch_directive host self parent m).
Proof.
  unfold fetch_directive.
  destruct (Py.truthy _).
  - destruct (allow_remote self); [|apply preserves_ret].
    apply preserves_bind; [intros st; apply P_cyclic_add|intros _].
    apply preserves_bind; [intros st; apply P_get_remote|intros r].
    apply preserves_ret.
  - destruct (allow_local self); [|apply preserves_ret].
    apply preserves_bind; [intros st; apply P_cyclic_add|intros _].
    apply preserves_bind; [intros st; apply P_get_local|intros r].
    apply preserves_ret.
Qed.

Section OneLevel.

Variable recur : list string → string → M T (list string).
Hypothesis P_recur : ∀ lines parent, preserves (recur lines parent).

Lemma preserves_cyclic_safe textl filename parent :
  preserves
    (mdx_include_get_cyclic_safe_processed_line_list self recur textl
       filename parent).
Proof.
  intros st HP. unfold mdx_include_get_cyclic_safe_processed_line_list.
  unfold bind, get_state.
  destruct (negb _); [by apply P_recur|].
  destruct (allow_circular_inclusion self); exact HP.
Qed.

Lemma preserves_get_recursive textl filename parent recursive recurse_state :
  preserves
    (get_recursive_content_list self recur textl filename parent recursive
       recurse_state).
Proof.
  rewrite get_recursive_content_list_effective.
  destruct (effective_recursion _ _ _);
    [apply preserves_cyclic_safe | apply preserves_ret].
Qed.

Lemma preserves_process_match parent line acc m :
  preserves (process_match host self recur parent line acc m).
Proof.
  unfold process_match.
  apply preserves_bind.
  - unfold match_content. apply preserves_bind.
    + destruct (negb _); [|apply preserves_ret].
      intros st HP. rewrite include_directive_fetch. revert st HP.
      apply preserves_bind; [apply preserves_fetch_directive|].
      intros [f|]; [|apply preserves_ret].
      apply preserves_bind; [apply preserves_get_recursive|].
      intros; apply preserves_ret.
    + intros r. destruct (_ && _); apply preserves_ret.
  - intros textl. apply preserves_bind; [|intros; apply preserves_ret].
    unfold strip_content. destruct textl; [apply preserves_ret|].
    destruct (Py.truthy_opt _); [|apply preserves_ret].
    unfold strip_common_indent.
    destruct (num_common_spaces _); [apply preserves_ret|apply preserves_raise].
Qed.

Lemma preserves_process_lines lines parent :
  preserves (process_lines host self recur lines parent).
Proof.
  intros st HP. unfold process_lines.
  apply for_each_preserves; [|exact HP].
  clear st HP. intros new_lines line st HP. unfold process_line.
  revert st HP. apply preserves_bind; [|intros; apply preserves_ret].
  intros st HP. apply for_each_preserves; [|exact HP].
  intros acc m. apply preserves_process_match.
Qed.

End OneLevel.

(** A property of the state that the three operations on it preserve is
    preserved by the expansion, whatever its outcome. *)
Lemma preserves_processed_lines fuel lines parent :
  preserves (mdx_include_get_processed_lines host self fuel lines parent).
Proof.
  revert lines parent. induction fuel as [|fuel IH]; intros lines parent.
  - apply preserves_raise.
  - simpl. apply preserves_process_lines. exact IH.
Qed.

End Preservation.

(** ** Reading through the caches *)

Section Caches.

Context {T : Type} `{CyclicOps T}.
Variable host : Host.
Variable self : Config.

(** What [get_local_content_list] and [get_remote_content_list] of the
    preprocessor do, case by case. *)
Lemma get_content_list_spec k key enc (st : State T) :
  get_content_list host self k key enc st =
  if cache_enabled self k then
    match cache_of k st !! key with
    | Some textl => (logged [CacheLookup k key true] st, Ok (textl, true))
    | None =>
        match retrieve host k (trace st ++ [CacheLookup k key false]) key enc with
        | Some body =>
            (logged [CacheStore k key (body_lines body)]
               (stored k key (body_lines body)
                  (logged [Retrieve k key enc true]
                     (logged [CacheLookup k key false] st))),
             Ok (body_lines body, true))
        | None =>
            (logged [Retrieve k key enc false]
               (logged [CacheLookup k key false] st),
             Ok ([], false))
        end
    end
  else
    match retrieve host k (trace st) key enc with
    | Some body => (logged [Retrieve k key enc true] st, Ok (body_lines body, true))
    | None => (logged [Retrieve k key enc false] st, Ok ([], false))
    end.
Proof.
  destruct k; simpl.
  - unfold get_local_content_list, lookup_local,
      mdx_include.get_local_content_list, store_local, bind, get_state, log,
      ret, set_cache_local, logged, stored, body_lines; simpl.
    destruct (content_cache_local self) eqn:Hc; simpl.
    + destruct (mdx_include_content_cache_local st !! key) eqn:Hk; simpl.
      * reflexivity.
      * destruct (read_file host _ key enc); simpl; rewrite ?Hc; reflexivity.
    + destruct (read_file host _ key enc); simpl; rewrite ?Hc; reflexivity.
  - unfold get_remote_content_list, lookup_remote,
      mdx_include.get_remote_content_list, store_remote, bind, get_state, log,
      ret, set_cache_remote, logged, stored, body_lines; simpl.
    destruct (content_cache_remote self) eqn:Hc; simpl.
    + destruct (mdx_include_content_cache_remote st !! key) eqn:Hk; simpl.
      * reflexivity.
      * destruct (download host _ key enc); simpl; rewrite ?Hc; reflexivity.
    + destruct (download host _ key enc); simpl; rewrite ?Hc; reflexivity.
Qed.

End Caches.

(** ** Invariants of the caches *)

Section CacheInvariants.

Context {T : Type} `{CyclicOps T}.
Variable host : Host.
Variable self : Config.

Lemma cyclic_add_state filename parent (st : State T) :
  cyclic_add filename parent st
  = ({| mdx_include_content_cache_local := mdx_include_content_cache_local st;
        mdx_include_content_cache_remote := mdx_include_content_cache_remote st;
        cyclic := Cyclic_add filename parent (cyclic st);
        trace := trace st |}, Ok tt).
Proof. reflexivity. Qed.

Lemma successes_app k key tr evs :
  successes k key (tr ++ evs) = successes k key tr + successes k key evs.
Proof. unfold successes. by rewrite List.filter_app, length_app. Qed.

Lemma retrievals_app k key tr evs :
  retrievals k key (tr ++ evs) = retrievals k key tr + retrievals k key evs.
Proof. unfold retrievals. by rewrite List.filter_app, length_app. Qed.

Lemma Kind_eqb_eq a b : Kind_eqb a b = true ↔ a = b.
Proof. destruct a, b; simpl; split; congruence. Qed.

Lemma cache_of_stored_ne k k' key key' textl (st : State T) :
  (k ≠ k' ∨ key ≠ key') →
  cache_of k (stored k' key' textl st) !! key = cache_of k st !! key.
Proof.
  intros Hne. destruct k, k'; simpl; try reflexivity;
    (destruct (decide (key' = key)) as [->|];
     [destruct Hne; congruence | by rewrite lookup_insert_ne]).
Qed.

Lemma cache_of_stored_eq k key textl (st : State T) :
  cache_of k (stored k key textl st) !! key = Some textl.
Proof. destruct k; simpl; apply lookup_insert_eq. Qed.

Lemma cache_of_logged k evs (st : State T) :
  cache_of k (logged evs st) = cache_of k st.
Proof. by destruct k. Qed.

Lemma trace_stored k key textl (st : State T) :
  trace (stored k key textl st) = trace st.
Proof. by destruct k. Qed.

(** ** At most one successful retrieval per key *)

Lemma successes_lookup k key k' key' hit :
  successes k key [CacheLookup k' key' hit] = 0.
Proof. reflexivity. Qed.

Lemma successes_store k key k' key' textl :
  successes k key [CacheStore k' key' textl] = 0.
Proof. reflexivity. Qed.

Lemma successes_retrieve k key k' key' enc ok :
  successes k key [Retrieve k' key' enc ok]
  = if Kind_eqb k k' && String.eqb key key' && ok then 1 else 0.
Proof. unfold successes. simpl. by destruct (_ && _). Qed.

Lemma Kind_eqb_refl k : Kind_eqb k k = true.
Proof. by destruct k. Qed.

Lemma Kind_eqb_ne k k' : k ≠ k' → Kind_eqb k k' = false.
Proof. destruct k, k'; simpl; congruence. Qed.

Lemma trace_logged evs (st : State T) : trace (logged evs st) = trace st ++ evs.
Proof. reflexivity. Qed.

Lemma fetched_once_get_content_list k k' key enc (st : State T) :
  cache_enabled self k = true →
  fetched_once k st →
  fetched_once k (fst (get_content_list host self k' key enc st)).
Proof.
  intros Hen Hinv key0. rewrite get_content_list_spec.
  specialize (Hinv key0).
  destruct (decide (k = k')) as [<-|Hk].
  - rewrite Hen.
    destruct (cache_of k st !! key) as [textl|] eqn:Hc; cbn [fst].
    + rewrite cache_of_logged, trace_logged, successes_app, successes_lookup.
      destruct (cache_of k st !! key0); lia.
    + destruct (retrieve _ _ _ _ _) as [body|]; cbn [fst].
      * rewrite !cache_of_logged, !trace_logged, trace_stored, !trace_logged,
          !successes_app, successes_lookup, successes_store,
          successes_retrieve, Kind_eqb_refl.
        destruct (decide (key0 = key)) as [->|Hne].
        -- rewrite cache_of_stored_eq. rewrite Hc in Hinv.
           destruct (_ && _); lia.
        -- rewrite cache_of_stored_ne, !cache_of_logged by auto.
           replace (String.eqb key0 key) with false
             by (symmetry; by apply String.eqb_neq).
           simpl. destruct (cache_of k st !! key0); lia.
      * rewrite !cache_of_logged, !trace_logged,
          !successes_app, successes_lookup, successes_retrieve,
          andb_false_r.
        destruct (cache_of k st !! key0); lia.
  - pose proof (Kind_eqb_ne _ _ Hk) as Hf.
    destruct (cache_enabled self k'); cbn [fst].
    + destruct (cache_of k' st !! key); cbn [fst].
      * rewrite cache_of_logged, trace_logged, successes_app, successes_lookup.
        destruct (cache_of k st !! key0); lia.
      * destruct (retrieve _ _ _ _ _); cbn [fst].
        -- rewrite !cache_of_logged, cache_of_stored_ne, !cache_of_logged by auto.
           rewrite !trace_logged, trace_stored, !trace_logged,
             !successes_app, successes_lookup, successes_store,
             successes_retrieve, Hf.
           simpl. destruct (cache_of k st !! key0); lia.
        -- rewrite !cache_of_logged, !trace_logged,
             !successes_app, successes_lookup, successes_retrieve, Hf.
           simpl. destruct (cache_of k st !! key0); lia.
    + destruct (retrieve _ _ _ _ _); cbn [fst];
        rewrite cache_of_logged, trace_logged, successes_app,
          successes_retrieve, Hf;
        simpl; destruct (cache_of k st !! key0); lia.
Qed.

Lemma fetched_once_processed_lines k fuel lines parent (st : State T) :
  cache_enabled self k = true →
  fetched_once k st →
  fetched_once k (fst (mdx_include_get_processed_lines host self fuel lines parent st)).
Proof.
  intros Hen. apply (preserves_processed_lines host self (fetched_once k)).
  - intros filename parent' st' Hinv. exact Hinv.
  - intros filename enc st'.
    apply (fetched_once_get_content_list k Local); exact Hen.
  - intros filename enc st'.
    apply (fetched_once_get_content_list k Remote); exact Hen.
Qed.

(** ** Entries are kept *)

Lemma keeps_entries_refl (st : State T) : keeps_entries st st.
Proof.
  split; [done|]. split; [done|]. exists []. split; [by rewrite app_nil_r|].
  intros k key textl Hin. by apply elem_of_nil in Hin.
Qed.

Lemma keeps_entries_logged (st0 st : State T) evs :
  (∀ k key textl, CacheStore k key textl ∉ evs) →
  keeps_entries st0 st → keeps_entries st0 (logged evs st).
Proof.
  intros Hno (Hl & Hr & evs0 & Htr & Hst).
  split; [exact Hl|]. split; [exact Hr|].
  exists (evs0 ++ evs). split.
  - rewrite trace_logged, Htr. by rewrite app_assoc.
  - intros k key textl Hin. rewrite cache_of_logged.
    apply elem_of_app in Hin as [Hin|Hin]; [by apply Hst|].
    by apply Hno in Hin.
Qed.

Lemma keeps_entries_stored (st0 st : State T) k key textl :
  cache_of k st !! key = None →
  keeps_entries st0 st →
  keeps_entries st0 (logged [CacheStore k key textl] (stored k key textl st)).
Proof.
  intros Hnone (Hl & Hr & evs0 & Htr & Hst).
  split; [|split].
  - destruct k; simpl; [|exact Hl].
    etrans; [exact Hl|]. by apply insert_subseteq.
  - destruct k; simpl; [exact Hr|].
    etrans; [exact Hr|]. by apply insert_subseteq.
  - exists (evs0 ++ [CacheStore k key textl]). split.
    + rewrite trace_logged, trace_stored, Htr. by rewrite app_assoc.
    + intros k1 key1 textl1 Hin. rewrite cache_of_logged.
      apply elem_of_app in Hin as [Hin|Hin].
      * specialize (Hst _ _ _ Hin).
        rewrite cache_of_stored_ne; [exact Hst|].
        destruct (decide (k1 = k)) as [->|]; [|by left]. right.
        intros ->. congruence.
      * apply list_elem_of_singleton in Hin. injection Hin as -> -> ->.
        apply cache_of_stored_eq.
Qed.

Lemma keeps_entries_get_content_list (st0 : State T) k key enc st :
  keeps_entries st0 st →
  keeps_entries st0 (fst (get_content_list host self k key enc st)).
Proof.
  intros Hinv. rewrite get_content_list_spec.
  assert (Hlog : ∀ ev, (∀ k1 key1 textl1, ev ≠ CacheStore k1 key1 textl1) →
                 ∀ k1 key1 textl1, CacheStore k1 key1 textl1 ∉ [ev]).
  { intros ev Hev k1 key1 textl1 Hin.
    apply list_elem_of_singleton in Hin. by eapply Hev. }
  destruct (cache_enabled self k).
  - destruct (cache_of k st !! key) eqn:Hc; cbn [fst].
    + apply keeps_entries_logged; [by apply Hlog|exact Hinv].
    + destruct (retrieve _ _ _ _ _); cbn [fst].
      * apply keeps_entries_stored.
        -- by rewrite !cache_of_logged.
        -- do 2 (apply keeps_entries_logged; [by apply Hlog|]). exact Hinv.
      * do 2 (apply keeps_entries_logged; [by apply Hlog|]). exact Hinv.
  - destruct (retrieve _ _ _ _ _); cbn [fst];
      (apply keeps_entries_logged; [by apply Hlog|exact Hinv]).
Qed.

Lemma keeps_entries_processed_lines (st0 : State T) fuel lines parent st :
  keeps_entries st0 st →
  keeps_entries st0
    (fst (mdx_include_get_processed_lines host self fuel lines parent st)).
Proof.
  apply (preserves_processed_lines host self (keeps_entries st0)).
  - intros filename parent' st' Hinv. exact Hinv.
  - intros filename enc st'. apply (keeps_entries_get_content_list st0 Local).
  - intros filename enc st'. apply (keeps_entries_get_content_list st0 Remote).
Qed.

End CacheInvariants.

(** ** The end of a run *)

Section Run.

Context {T : Type} `{CyclicOps T}.
Variable host : Host.
Variable self : Config.

Lemma run_unfold fuel lines (st : State T) :
  run host self fuel lines st =
  match mdx_include_get_processed_lines host self fuel lines ""
          (with_new_tracker st) with
  | (st1, Ok new_lines) =>
      (fst ((if content_cache_clean_remote self then set_cache_remote ∅ else ret tt)
              (fst ((if content_cache_clean_local self
                     then set_cache_local ∅ else ret tt) st1))),
       Ok new_lines)
  | (st1, Raise e) => (st1, Raise e)
  end.
Proof.
  unfold run, bind. simpl.
  change (let (_, _, cyclic, _) := st in cyclic) with (cyclic st).
  fold (with_new_tracker st).
  destruct (mdx_include_get_processed_lines _ _ _ _ _ _) as [st1 [out|e]];
    [|reflexivity].
  destruct (content_cache_clean_local self), (content_cache_clean_remote self);
    reflexivity.
Qed.

(** An exception of the expansion is the outcome of [run], in the state the
    expansion stopped in. *)
Lemma run_raise fuel lines (st st' : State T) e :
  mdx_include_get_processed_lines host self fuel lines "" (with_new_tracker st)
  = (st', Raise e) →
  run host self fuel lines st = (st', Raise e).
Proof. intros Hp. rewrite run_unfold. by rewrite Hp. Qed.

Lemma run_raise_inv fuel lines (st st' : State T) e :
  run host self fuel lines st = (st', Raise e) →
  mdx_include_get_processed_lines host self fuel lines "" (with_new_tracker st)
  = (st', Raise e).
Proof.
  rewrite run_unfold.
  destruct (mdx_include_get_processed_lines _ _ _ _ _ _) as [st1 [out|e1]];
    [discriminate|]. intros [= -> ->]. reflexivity.
Qed.

End Run.

(** C9: when a run ends with the [RuntimeError] of a circular inclusion, the
    state it leaves is the state the expansion stopped in, with neither
    cache cleaned whatever [content_cache_clean_local] and
    [content_cache_clean_remote] say: each cache still holds every entry it
    held before the run, and every entry stored during the run. *)
Theorem run_abort_keeps_caches {T} `{CyclicOps T} (host : Host) (self : Config)
    fuel lines (st st' : State T) msg :
  run host self fuel lines st = (st', Raise (RuntimeError msg)) →
  mdx_include_get_processed_lines host self fuel lines "" (with_new_tracker st)
  = (st', Raise (RuntimeError msg))
  ∧ keeps_entries st st'.
Proof.
  intros Hrun. apply run_raise_inv in Hrun. split; [exact Hrun|].
  pose proof (keeps_entries_processed_lines host self (with_new_tracker st)
                fuel lines "" (with_new_tracker st)
                (keeps_entries_refl _)) as Hk.
  rewrite Hrun in Hk. exact Hk.
Qed.

Lemma run_abort_keeps_caches_witness :
  let st' := fst (run Examples.cycle_host Examples.cleaning_config 3
                    Examples.cycle_document Sample.fresh) in
  keeps_entries Sample.fresh st'
  ∧ mdx_include_content_cache_local st' !! "b.md" = Some ["{! a.md !}"].
Proof.
  split.
  - refine (proj2 (run_abort_keeps_caches Examples.cycle_host
                     Examples.cleaning_config 3 Examples.cycle_document
                     Sample.fresh _ _ _)).
    vm_compute. reflexivity.
  - vm_compute. reflexivity.
Defined.

(** ** Circular inclusion *)

Section Circular.

Context {T : Type} `{CyclicOps T}.
Variable host : Host.
Variable self : Config.
Variable recur : list string → string → M T (list string).

Lemma cyclic_safe_on_cycle textl filename parent (st : State T) :
  Cyclic_is_cyclic filename (cyclic st) = true →
  mdx_include_get_cyclic_safe_processed_line_list self recur textl filename
    parent st
  = if allow_circular_inclusion self then (st, Ok textl)
    else (st, Raise (RuntimeError
                       (circular_message parent filename
                          (Cyclic_root_str filename (cyclic st))))).
Proof.
  intros Hcyc. unfold mdx_include_get_cyclic_safe_processed_line_list.
  unfold bind, get_state. rewrite Hcyc. simpl.
  destruct (allow_circular_inclusion self); reflexivity.
Qed.


Lemma include_directive_on_cycle parent m (st : State T) f st1 :
  fetch_directive host self parent m st = (st1, Ok (Some f)) →
  effective_recursion self (f_recursive f) (g_recursive m) = true →
  Cyclic_is_cyclic (f_key f) (cyclic st1) = true →
  include_directive host self recur parent m st
  = if allow_circular_inclusion self then (st1, Ok (f_textl f, f_stat f))
    else (st1, Raise (RuntimeError
                        (circular_message parent (f_key f)
                           (Cyclic_root_str (f_key f) (cyclic st1))))).
Proof.
  intros Hf Heff Hcyc.
  rewrite include_directive_fetch, (bind_Ok _ _ _ _ _ Hf).
  unfold bind at 1.
  rewrite get_recursive_content_list_effective, Heff,
    cyclic_safe_on_cycle by exact Hcyc.
  destruct (allow_circular_inclusion self); reflexivity.
Qed.

End Circular.

(** Let the expansion of a document come to a directive that is not
    escaped, whose inclusion is recursive (by its toggle and the default of
    its kind) and whose key the tracker reports as cyclic once the edge is
    recorded.  If [allow_circular_inclusion] is false, [run] ends with the
    [RuntimeError] of line 239.  If it is true, the inclusion raises nothing
    and yields the fetched (and sliced) content as it is, with no directive
    of it processed. *)
Lemma circular_inclusion_policy {T} `{CyclicOps T} (host : Host)
    (self : Config) fuel lines (st : State T) n parent line acc m st2 f st3 :
  reaches host self fuel lines "" (with_new_tracker st) n parent line acc m st2 →
  Py.truthy_opt (g_escape m) = false →
  fetch_directive host self parent m st2 = (st3, Ok (Some f)) →
  effective_recursion self (f_recursive f) (g_recursive m) = true →
  Cyclic_is_cyclic (f_key f) (cyclic st3) = true →
  if allow_circular_inclusion self then
    include_directive host self (mdx_include_get_processed_lines host self n)
      parent m st2
    = (st3, Ok (f_textl f, f_stat f))
  else
    run host self fuel lines st
    = (st3, Raise (RuntimeError
                     (circular_message parent (f_key f)
                        (Cyclic_root_str (f_key f) (cyclic st3))))).
Proof.
  intros Hreach Hesc Hf Heff Hcyc.
  pose proof (include_directive_on_cycle host self
                (mdx_include_get_processed_lines host self n)
                parent m st2 f st3 Hf Heff Hcyc) as Hinc.
  destruct (allow_circular_inclusion self); [exact Hinc|].
  apply run_raise. eapply reaches_raise; [exact Hreach|].
  unfold process_match. apply bind_Raise.
  unfold match_content. rewrite Hesc. simpl. apply bind_Raise. exact Hinc.
Qed.


(** With circular inclusion allowed the same document is expanded: the
    second encounter of [a.md] contributes its lines as they are. *)
Example circular_inclusion_allowed :
  snd (run Examples.cycle_host Examples.circular_config 3
         Examples.cycle_document Sample.fresh)
  = Ok ["{! b.md !}"].
Proof. vm_compute. reflexivity. Qed.

(** ** The recursion toggle *)

Lemma fetch_directive_recursive {T} `{CyclicOps T} (host : Host)
    (self : Config) parent m (st st1 : State T) f :
  fetch_directive host self parent m st = (st1, Ok (Some f)) →
  f_recursive f
  = if Py.truthy (url_netloc host (expanduser host (g_path m)))
    then recurs_remote self else recurs_local self.
Proof.
  unfold fetch_directive. destruct (Py.truthy _).
  - destruct (allow_remote self); [|discriminate].
    intros Hb. apply bind_inv_Ok in Hb as (? & ? & _ & Hb).
    apply bind_inv_Ok in Hb as (? & ? & _ & Hb).
    injection Hb as _ <-. reflexivity.
  - destruct (allow_local self); [|discriminate].
    intros Hb. apply bind_inv_Ok in Hb as (? & ? & _ & Hb).
    apply bind_inv_Ok in Hb as (? & ? & _ & Hb).
    injection Hb as _ <-. reflexivity.
Qed.

(** C1, as the code has it: the toggle for "off" always leaves the content
    unexpanded; the toggle for "on" has it expanded unless the option of the
    kind is [False], which switches recursion off whatever the directive
    says; without a toggle the content is expanded exactly when the option
    of the kind is [True].  The option is [recurs_remote] for a target with
    a network location and [recurs_local] for the others. *)
Theorem recursion_toggle_and_default {T} `{CyclicOps T} (host : Host)
    (self : Config) (recur : list string → string → M T (list string))
    textl filename parent recursive :
  syntax_recurs_on self ≠ syntax_recurs_off self →
  let expand :=
    mdx_include_get_cyclic_safe_processed_line_list self recur textl filename
      parent in
  let decide recurse_state :=
    get_recursive_content_list self recur textl filename parent recursive
      recurse_state in
  decide (Some (syntax_recurs_off self)) = ret textl
  ∧ decide (Some (syntax_recurs_on self))
    = (if bool_decide (recursive = Some false) then ret textl else expand)
  ∧ decide None
    = (if bool_decide (recursive = Some true) then expand else ret textl)
  ∧ ∀ dir_parent m (st st1 : State T) f,
      fetch_directive host self dir_parent m st = (st1, Ok (Some f)) →
      f_recursive f
      = if Py.truthy (url_netloc host (expanduser host (g_path m)))
        then recurs_remote self else recurs_local self.
Proof.
  intros Hne expand decide. subst expand decide. simpl.
  repeat split.
  - destruct recursive as [[]|]; simpl; try reflexivity.
    + rewrite bool_decide_eq_false_2; [reflexivity|]. intros Hn. by apply Hn.
    + rewrite bool_decide_eq_false_2; [reflexivity|]. congruence.
  - destruct recursive as [[]|]; simpl; try reflexivity.
    + rewrite bool_decide_eq_true_2; [reflexivity|]. congruence.
    + rewrite bool_decide_eq_true_2; reflexivity.
  - destruct recursive as [[]|]; simpl; reflexivity.
  - intros dir_parent m st st1 f. apply fetch_directive_recursive.
Qed.

Lemma recursion_toggle_and_default_witness :
  get_recursive_content_list default_config
    (mdx_include_get_processed_lines Examples.toggle_host default_config 1)
    ["{! b.md !}"] "http://h/a" "" (recurs_remote default_config) (Some "+")
  = ret ["{! b.md !}"].
Proof.
  refine (proj1 (proj2 (recursion_toggle_and_default (T := gmap string (list string))
            Examples.toggle_host default_config
            _ ["{! b.md !}"] "http://h/a" "" (Some false) _))).
  simpl. discriminate.
Defined.

(** C1 fails as stated: under the default options ([recurs_remote] is
    [False]) a remote directive with the toggle [+] is not expanded, and the
    same directive is expanded once [recurs_remote] is [True]; the option,
    not the toggle alone, decides. *)
Lemma toggle_on_does_not_override_false :
  recurs_remote default_config = Some false
  ∧ snd (run Examples.toggle_host default_config 3 Examples.toggle_document
           Sample.fresh) = Ok ["{! b.md !}"]
  ∧ snd (run Examples.toggle_host Examples.remote_recursive_config 3
           Examples.toggle_document Sample.fresh) = Ok ["B"].
Proof. repeat split; vm_compute; reflexivity. Qed.

(** ** Stripping the common indent *)

Lemma rstrip_nonspace c r :
  Py.isspace c = false → Py.rstrip (String c r) = String c (Py.rstrip r).
Proof. intros Hc. simpl. destruct (Py.rstrip r); [by rewrite Hc|done]. Qed.

Lemma strip_starts_nonspace s :
  starts_nonspace s = true → Py.truthy (Py.strip s) = true.
Proof.
  destruct s as [|c r]; [discriminate|]. simpl. intros Hc.
  apply negb_true_iff in Hc. unfold Py.strip.
  rewrite rstrip_nonspace by exact Hc. simpl. by rewrite Hc.
Qed.

Lemma indent_width_starts_nonspace s :
  starts_nonspace s = true → indent_width s = 0.
Proof.
  destruct s as [|c r]; [discriminate|]. simpl. intros Hc.
  apply negb_true_iff in Hc. unfold indent_width. simpl. rewrite Hc.
  simpl. lia.
Qed.

(** A single line that starts with a character other than white space is
    left as it is. *)
Lemma strip_content_single {T} m s (st : State T) :
  (Py.truthy_opt (g_strip_indent m) = true → starts_nonspace s = true) →
  strip_content m [s] st = (st, Ok [s]).
Proof.
  intros Hs. unfold strip_content.
  destruct (Py.truthy_opt (g_strip_indent m)); [|reflexivity].
  specialize (Hs eq_refl).
  unfold strip_common_indent, num_common_spaces. simpl.
  rewrite filter_cons_True by (by apply strip_starts_nonspace).
  rewrite filter_nil. simpl.
  rewrite indent_width_starts_nonspace by exact Hs. reflexivity.
Qed.

(** ** Escaped directives *)

Lemma match_content_escaped {T} `{CyclicOps T} (host : Host) (self : Config)
    (recur : list string → string → M T (list string)) parent line m
    (st : State T) :
  Py.truthy_opt (g_escape m) = true →
  match_content host self recur parent line m st
  = (st, Ok [Py.from 1 (group0 line m)]).
Proof. intros Hesc. unfold match_content. rewrite Hesc. reflexivity. Qed.

(** The whole run on the escaped directive: the literal text, an empty
    trace and empty caches. *)
Example escaped_directive_run :
  let r := run Examples.empty_host default_config 1 [Examples.escaped_line]
             Sample.fresh in
  snd r = Ok ["{!< nowhere.md !}"] ∧ trace (fst r) = []
  ∧ mdx_include_content_cache_local (fst r) = ∅.
Proof. repeat split; vm_compute; reflexivity. Qed.

(** ** Failed retrieval *)

Section Failure.

Context {T : Type} `{CyclicOps T}.
Variable host : Host.
Variable self : Config.

(** [fetch_directive] in terms of the target. *)
Lemma fetch_directive_target parent m (st : State T) :
  fetch_directive host self parent m st =
  match directive_target host self parent m with
  | Some (k, key) =>
      match get_content_list host self k key
              (choose_encoding host self (g_encoding m))
              (fst (cyclic_add key parent st)) with
      | (st1, Ok r) =>
          (st1, Ok (Some {| f_key := key; f_recursive := recurs_of self k;
                            f_textl := slice_lines host (g_lines m) (fst r);
                            f_stat := snd r |}))
      | (st1, Raise e) => (st1, Raise e)
      end
  | None => (st, Ok None)
  end.
Proof.
  unfold fetch_directive, directive_target.
  destruct (Py.truthy _).
  - destruct (allow_remote self); [|reflexivity].
    unfold bind at 1. rewrite cyclic_add_state. cbn [fst].
    unfold bind, get_content_list.
    destruct (get_remote_content_list _ _ _ _ _) as [st1 [r|e]]; reflexivity.
  - destruct (allow_local self); [|reflexivity].
    unfold bind at 1. rewrite cyclic_add_state. cbn [fst].
    unfold bind, get_content_list.
    destruct (get_local_content_list _ _ _ _ _) as [st1 [r|e]]; reflexivity.
Qed.

(** The methods that read through the caches raise nothing, and a failure
    comes with no line. *)
Lemma get_content_list_total k key enc (st : State T) :
  ∃ st1 textl stat,
    get_content_list host self k key enc st = (st1, Ok (textl, stat))
    ∧ (stat = false → textl = []).
Proof.
  rewrite get_content_list_spec.
  destruct (cache_enabled self k).
  - destruct (cache_of k st !! key).
    + eexists _, _, _. split; [reflexivity|discriminate].
    + destruct (retrieve _ _ _ _ _).
      * eexists _, _, _. split; [reflexivity|discriminate].
      * eexists _, _, _. split; [reflexivity|done].
  - destruct (retrieve _ _ _ _ _).
    + eexists _, _, _. split; [reflexivity|discriminate].
    + eexists _, _, _. split; [reflexivity|done].
Qed.




End Failure.




(** The whole run on a missing file, with the directive kept and with the
    directive dropped. *)
Example failed_retrieval_run :
  snd (run Examples.empty_host Examples.keeping_config 2 ["{! missing.md !}"]
         Sample.fresh) = Ok ["{! missing.md !}"]
  ∧ snd (run Examples.empty_host default_config 2 ["{! missing.md !}"]
           Sample.fresh) = Ok [""].
Proof. split; vm_compute; reflexivity. Qed.

(** ** Splicing the content into the line *)

Lemma bind_assoc {T A B C} (x : M T A) (f : A → M T B) (g : B → M T C) st :
  bind (bind x f) g st = bind x (λ a, bind (f a) g) st.
Proof.
  unfold bind. destruct (x st) as [st1 [a|e]]; reflexivity.
Qed.

Lemma slice_from_start s line : Py.slice 0 s line = Py.upto s line.
Proof. unfold Py.slice. by rewrite Nat.sub_0_r. Qed.

(** After a match the buffer of the line is not empty, so that [resll] is
    empty exactly at the first match of a line. *)
Lemma splice_not_nil prefix apply_indent resll textl :
  splice prefix apply_indent resll textl ≠ [].
Proof.
  unfold splice. destruct textl as [|t0 rest].
  - by destruct resll.
  - destruct resll as [|r0 resll].
    + by destruct (bool_decide _).
    + simpl. destruct resll; discriminate.
Qed.

(** C7, as the code has it.  Let the content of a directive, after
    stripping, be the lines [t0 :: rest].  At the first match of a line the
    text of the line before the match is put in front of every line of the
    content when the apply-indent group is not empty, and in front of [t0]
    alone when the group is empty.  At a later match of the line the group
    is not looked at: [t0] goes on the last line produced so far, after the
    text between the two matches, and [rest] follows as it is. *)
Theorem apply_indent_at_first_match {T} `{CyclicOps T} (host : Host)
    (self : Config) (recur : list string → string → M T (list string))
    parent line m (st st' : State T) t0 rest :
  bind (match_content host self recur parent line m) (strip_content m) st
  = (st', Ok (t0 :: rest)) →
  process_match host self recur parent line (0, []) m st
  = (st', Ok (m_end m,
              if bool_decide (g_apply_indent m ≠ Some "")
              then map (λ element, Py.upto (m_start m) line +:+ element)
                     (t0 :: rest)
              else (Py.upto (m_start m) line +:+ t0) :: rest))
  ∧ ∀ c r0 resll,
      process_match host self recur parent line (c, r0 :: resll) m st
      = (st', Ok (m_end m,
                  set_last (λ last, last +:+ Py.slice c (m_start m) line +:+ t0)
                    (r0 :: resll) ++ rest)).
Proof.
  intros Hb. split; [|intros c r0 resll];
    unfold process_match; rewrite <- bind_assoc, (bind_Ok _ _ _ _ _ Hb).
  - cbn [fst snd]. rewrite slice_from_start. unfold splice, ret.
    destruct (bool_decide _); reflexivity.
  - reflexivity.
Qed.

Lemma apply_indent_at_first_match_witness :
  snd (process_match Examples.indent_host default_config
         (mdx_include_get_processed_lines Examples.indent_host default_config 1)
         "" "    {!> b.md !}" (0, []) Examples.margin_apply_match Sample.fresh)
  = Ok (15, ["    B1"; "    B2"]).
Proof.
  pose (recur := mdx_include_get_processed_lines (T := gmap string (list string))
                   Examples.indent_host default_config 1).
  pose (st' := fst (bind (match_content Examples.indent_host default_config
                            recur "" "    {!> b.md !}"
                            Examples.margin_apply_match)
                      (strip_content Examples.margin_apply_match)
                      Sample.fresh)).
  assert (Hb : bind (match_content Examples.indent_host default_config
                       recur "" "    {!> b.md !}" Examples.margin_apply_match)
                 (strip_content Examples.margin_apply_match) Sample.fresh
               = (st', Ok ["B1"; "B2"])).
  { subst st' recur. vm_compute. reflexivity. }
  subst recur.
  rewrite (proj1 (apply_indent_at_first_match Examples.indent_host
                    default_config _ "" "    {!> b.md !}"
                    Examples.margin_apply_match Sample.fresh st' "B1" ["B2"]
                    Hb)).
  reflexivity.
Defined.

(** C7 fails as stated: the second directive of this line asks for
    apply-indent and includes two lines, and the second of them comes out
    with nothing in front of it. *)
Lemma apply_indent_ignored_after_first_match :
  g_apply_indent Examples.second_apply_match = Some ">"
  ∧ snd (run Examples.indent_host default_config 2
           ["{! a.md !} {!> b.md !}"] Sample.fresh)
    = Ok ["A B1"; "B2"].
Proof. split; [reflexivity|vm_compute; reflexivity]. Qed.

(** A single directive at column 4, with and without apply-indent. *)
Example apply_indent_margin :
  snd (run Examples.indent_host default_config 2 ["    {!> b.md !}"]
         Sample.fresh) = Ok ["    B1"; "    B2"]
  ∧ snd (run Examples.indent_host default_config 2 ["    {! b.md !}"]
           Sample.fresh) = Ok ["    B1"; "B2"].
Proof. split; vm_compute; reflexivity. Qed.

(** ** Content without a line that is not blank *)

Lemma foldl_min_le x xs : foldl Nat.min x xs ≤ x.
Proof.
  revert x. induction xs as [|y xs IH]; intros x; simpl; [lia|].
  specialize (IH (Nat.min x y)). lia.
Qed.

Lemma foldl_min_lower x xs y : y ∈ xs → foldl Nat.min x xs ≤ y.
Proof.
  revert x. induction xs as [|z xs IH]; intros x Hin; simpl.
  - by apply elem_of_nil in Hin.
  - apply elem_of_cons in Hin as [->|Hin].
    + pose proof (foldl_min_le (Nat.min x z) xs). lia.
    + by apply IH.
Qed.

(** [min] of a sequence that is not empty is a lower bound of it. *)
Lemma min_lower xs n y : Py.min xs = Some n → y ∈ xs → n ≤ y.
Proof.
  destruct xs as [|x xs]; [discriminate|]. simpl. intros [= <-] Hin.
  apply elem_of_cons in Hin as [->|Hin].
  - apply foldl_min_le.
  - by apply foldl_min_lower.
Qed.

(** With a line that is not blank the step raises nothing: it removes from
    every line a number of characters that is at most the indent of each
    line that is not blank. *)
Lemma strip_common_indent_some {T} textl item (st : State T) :
  item ∈ textl → Py.truthy (Py.strip item) = true →
  ∃ n, strip_common_indent textl st = (st, Ok (map (Py.from n) textl))
       ∧ ∀ item', item' ∈ textl → Py.truthy (Py.strip item') = true →
                  n ≤ indent_width item'.
Proof.
  intros Hin Hnb. unfold strip_common_indent.
  destruct (num_common_spaces textl) as [n|] eqn:Hn.
  - exists n. split; [reflexivity|]. intros item' Hin' Hnb'.
    unfold num_common_spaces in Hn. eapply min_lower; [exact Hn|].
    apply list_elem_of_fmap. exists item'. split; [reflexivity|].
    by apply list_elem_of_filter.
  - exfalso. unfold num_common_spaces in Hn.
    assert (Hne : item ∈ filter (λ item, Py.truthy (Py.strip item) = true) textl)
      by (by apply list_elem_of_filter).
    destruct (filter _ textl); [by apply elem_of_nil in Hne|discriminate].
Qed.

(** With blank lines only, [min] has nothing to take the minimum of. *)
Lemma strip_common_indent_blank {T} textl (st : State T) :
  (∀ item, item ∈ textl → Py.truthy (Py.strip item) = false) →
  strip_common_indent textl st
  = (st, Raise (ValueError "min() arg is an empty sequence")).
Proof.
  intros Hblank. unfold strip_common_indent, num_common_spaces.
  replace (filter _ textl) with (@nil string); [reflexivity|].
  symmetry. induction textl as [|item textl IH]; [reflexivity|].
  rewrite filter_cons_False.
  - apply IH. intros item' Hin. apply Hblank. by right.
  - rewrite Hblank by left. discriminate.
Qed.

(** C8 does not hold of the code: a document that includes an empty file
    with the strip-indent marker.  The content is the one empty line that
    [splitlines] gives for the file, the list is not empty, no line of it
    is other than blank, and [min] raises [ValueError], which ends the run. *)
Theorem strip_indent_raises_on_blank_content :
  body_lines "" = [""]
  ∧ snd (run Examples.blank_host default_config 2 ["{!< empty.md !}"]
           Sample.fresh)
    = Raise (ValueError "min() arg is an empty sequence").
Proof. split; vm_compute; reflexivity. Qed.

(** ** Paths that start with a tilde *)


(** The whole run: the file of the home directory is read under its
    expanded name. *)
Example tilde_path_run :
  let r := run Examples.tilde_host Examples.docs_config 2 ["{! ~/notes.md !}"]
             Sample.fresh in
  snd r = Ok ["N"]
  ∧ trace (fst r)
    = [CacheLookup Local "/home/user/notes.md" false;
       Retrieve Local "/home/user/notes.md" "utf-8" true;
       CacheStore Local "/home/user/notes.md" ["N"]].
Proof. split; vm_compute; reflexivity. Qed.

(** ** What the caches hold *)

Section Stored.

Context {T : Type} `{CyclicOps T}.
Variable host : Host.
Variable self : Config.

Lemma bind_ext_l {A B} (x y : M T A) (f : A → M T B) st :
  x st = y st → bind x f st = bind y f st.
Proof. intros Hxy. unfold bind. by rewrite Hxy. Qed.

(** What the steps after the fetch preserve, a match preserves from the
    state the fetch leaves. *)
Lemma process_match_after_fetch (P : State T → Prop)
    (recur : list string → string → M T (list string))
    parent line acc m (st st1 : State T) fo :
  (∀ lines parent', preserves P (recur lines parent')) →
  Py.truthy_opt (g_escape m) = false →
  fetch_directive host self parent m st = (st1, Ok fo) →
  P st1 →
  P (fst (process_match host self recur parent line acc m st)).
Proof.
  intros Hrecur Hesc Hf HP.
  unfold process_match, match_content. rewrite Hesc. cbn [negb].
  rewrite bind_assoc.
  erewrite bind_ext_l; [|apply include_directive_fetch].
  rewrite bind_assoc, (bind_Ok _ _ _ _ _ Hf).
  revert HP. generalize st1.
  apply preserves_bind.
  - destruct fo as [f|]; [|apply preserves_ret].
    apply preserves_bind; [by apply preserves_get_recursive|].
    intros; apply preserves_ret.
  - intros r. apply preserves_bind.
    + destruct (_ && _); apply preserves_ret.
    + intros textl. apply preserves_bind; [|intros; apply preserves_ret].
      unfold strip_content. destruct textl; [apply preserves_ret|].
      destruct (Py.truthy_opt (g_strip_indent m)); [|apply preserves_ret].
      unfold strip_common_indent.
      destruct (num_common_spaces _); [apply preserves_ret|apply preserves_raise].
Qed.

Lemma keeps_entries_lookup (st0 st : State T) k key textl :
  keeps_entries st0 st →
  cache_of k st0 !! key = Some textl → cache_of k st !! key = Some textl.
Proof.
  intros (Hl & Hr & _) Hk.
  destruct k; simpl in *; eapply lookup_weaken; eassumption.
Qed.

End Stored.

(** C5, as the code has it.  Take a directive that is not escaped, with or
    without a line range, whose key is not yet in the cache of its kind,
    with that cache in use and a retrieval that succeeds.  The content
    handed on to the recursive expansion is the range applied to the lines
    fetched, but the entry that the cache holds once the directive is
    processed, however that ends, is the lines as they were fetched: the
    range is not applied to it, and what the expansion returns is not
    stored. *)
Theorem cache_holds_fetched_lines {T} `{CyclicOps T} (host : Host)
    (self : Config) fuel parent line acc m (st : State T) k key body :
  Py.truthy_opt (g_escape m) = false →
  directive_target host self parent m = Some (k, key) →
  cache_enabled self k = true →
  cache_of k st !! key = None →
  retrieve host k (trace st ++ [CacheLookup k key false]) key
    (choose_encoding host self (g_encoding m)) = Some body →
  (∃ st1,
     fetch_directive host self parent m st
     = (st1, Ok (Some {| f_key := key; f_recursive := recurs_of self k;
                         f_textl := slice_lines host (g_lines m)
                                      (body_lines body);
                         f_stat := true |})))
  ∧ cache_of k
      (fst (process_match host self
              (mdx_include_get_processed_lines host self fuel)
              parent line acc m st)) !! key
    = Some (body_lines body).
Proof.
  intros Hesc Htarget Hen Hnone Hbody.
  pose proof (fetch_directive_target host self parent m st) as Hf.
  rewrite Htarget, get_content_list_spec, Hen in Hf.
  rewrite cyclic_add_state in Hf. cbn [fst] in Hf.
  replace (cache_of k _ !! key) with (cache_of k st !! key) in Hf
    by (by destruct k).
  rewrite Hnone in Hf. cbn [trace] in Hf. rewrite Hbody in Hf.
  cbn [fst snd] in Hf.
  split; [eexists; exact Hf|].
  eapply (process_match_after_fetch host self
            (λ st', cache_of k st' !! key = Some (body_lines body))).
  - intros lines parent' st0 Hk.
    eapply keeps_entries_lookup; [|exact Hk].
    apply keeps_entries_processed_lines, keeps_entries_refl.
  - exact Hesc.
  - exact Hf.
  - rewrite cache_of_logged. apply cache_of_stored_eq.
Qed.

Lemma cache_holds_fetched_lines_witness :
  mdx_include_content_cache_local
    (fst (process_match Examples.range_host default_config
            (mdx_include_get_processed_lines Examples.range_host
               default_config 1)
            "" "{! two.md [ln:1] !}" (0, []) Examples.range_match
            Sample.fresh)) !! "two.md"
  = Some ["first"; "second"].
Proof.
  refine (proj2 (cache_holds_fetched_lines Examples.range_host default_config
                   1 "" "{! two.md [ln:1] !}" (0, []) Examples.range_match
                   Sample.fresh Local "two.md"
                   ("first" +:+ String "010" "second") _ _ _ _ _));
    reflexivity.
Defined.

(** C5 fails as stated: the directive asks for line 1 of a file of two
    lines.  The range gives one line, which is what the document gets, and
    the entry of the cache is the two lines of the file. *)
Lemma cache_entry_is_not_sliced :
  let r := run Examples.range_host default_config 2 ["{! two.md [ln:1] !}"]
             Sample.fresh in
  snd r = Ok ["first"]
  ∧ row_slice Examples.range_host ["first"; "second"] "1" = ["first"]
  ∧ mdx_include_content_cache_local (fst r) !! "two.md"
    = Some ["first"; "second"].
Proof. repeat split; vm_compute; reflexivity. Qed.

(** ** How often the retrieval capability is called *)

Section Counting.

Context {T : Type} `{CyclicOps T}.
Variable host : Host.
Variable self : Config.

Lemma retrievals_lookup k key k' key' hit :
  retrievals k key [CacheLookup k' key' hit] = 0.
Proof. reflexivity. Qed.

Lemma retrievals_retrieve k key enc ok :
  retrievals k key [Retrieve k key enc ok] = 1.
Proof.
  unfold retrievals. simpl. by rewrite Kind_eqb_refl, String.eqb_refl.
Qed.

Lemma run_trace fuel lines (st : State T) :
  trace (fst (run host self fuel lines st))
  = trace (fst (mdx_include_get_processed_lines host self fuel lines ""
                  (with_new_tracker st))).
Proof.
  rewrite run_unfold.
  destruct (mdx_include_get_processed_lines _ _ _ _ _ _) as [st1 [out|e]];
    [|reflexivity].
  destruct (content_cache_clean_local self), (content_cache_clean_remote self);
    reflexivity.
Qed.

(** With the cache of a kind in use, a run that starts with an empty trace
    retrieves no key of the kind with success more than once. *)
Lemma run_successes k fuel lines key (st : State T) :
  cache_enabled self k = true →
  trace st = [] →
  successes k key (trace (fst (run host self fuel lines st))) ≤ 1.
Proof.
  intros Hen Htr. rewrite run_trace.
  assert (Hinit : fetched_once k (with_new_tracker st)).
  { intros key0.
    replace (trace (with_new_tracker st)) with (@nil Event) by (by rewrite <- Htr).
    destruct (cache_of k (with_new_tracker st) !! key0);
      unfold successes; simpl; lia. }
  pose proof (fetched_once_processed_lines host self k fuel lines ""
                (with_new_tracker st) Hen Hinit key) as Hfin.
  destruct (cache_of k _ !! key); lia.
Qed.

(** A directive for a key that is in the cache in use calls no retrieval. *)
Lemma fetch_directive_cached parent m k key (st : State T) :
  cache_enabled self k = true →
  directive_target host self parent m = Some (k, key) →
  is_Some (cache_of k st !! key) →
  retrievals k key (trace (fst (fetch_directive host self parent m st)))
  = retrievals k key (trace st).
Proof.
  intros Hen Htarget [textl Hc].
  rewrite fetch_directive_target, Htarget, get_content_list_spec, Hen.
  rewrite cyclic_add_state. cbn [fst].
  replace (cache_of k _ !! key) with (cache_of k st !! key) by (by destruct k).
  rewrite Hc. cbn [fst trace logged].
  rewrite retrievals_app, retrievals_lookup. lia.
Qed.

(** A directive of a kind whose cache is not in use calls the retrieval
    once. *)
Lemma fetch_directive_uncached parent m k key (st : State T) :
  cache_enabled self k = false →
  directive_target host self parent m = Some (k, key) →
  retrievals k key (trace (fst (fetch_directive host self parent m st)))
  = S (retrievals k key (trace st)).
Proof.
  intros Hen Htarget.
  rewrite fetch_directive_target, Htarget, get_content_list_spec, Hen.
  rewrite cyclic_add_state. cbn [fst trace].
  destruct (retrieve _ _ _ _ _); cbn [fst trace logged];
    rewrite retrievals_app, retrievals_retrieve; lia.
Qed.

(** A directive of a kind whose cache is in use, for a key that is not in
    it, calls the retrieval once; the cache then holds the lines fetched
    when the retrieval succeeded, and still nothing for the key when it
    failed. *)
Lemma fetch_directive_missed parent m k key (st : State T) :
  cache_enabled self k = true →
  directive_target host self parent m = Some (k, key) →
  cache_of k st !! key = None →
  retrievals k key (trace (fst (fetch_directive host self parent m st)))
  = S (retrievals k key (trace st))
  ∧ cache_of k (fst (fetch_directive host self parent m st)) !! key
    = body_lines
        <$> retrieve host k (trace st ++ [CacheLookup k key false]) key
              (choose_encoding host self (g_encoding m)).
Proof.
  intros Hen Htarget Hc.
  rewrite fetch_directive_target, Htarget, get_content_list_spec, Hen.
  rewrite cyclic_add_state. cbn [fst].
  replace (cache_of k _ !! key) with (cache_of k st !! key) by (by destruct k).
  rewrite Hc. cbn [trace].
  destruct (retrieve _ _ _ _ _) as [body|]; cbn [fst].
  - rewrite !trace_logged, trace_stored, !trace_logged. cbn [trace].
    rewrite !retrievals_app, retrievals_lookup, retrievals_retrieve.
    rewrite cache_of_logged, cache_of_stored_eq.
    split; [|reflexivity].
    change (retrievals k key [CacheStore k key (body_lines body)]) with 0.
    lia.
  - rewrite !trace_logged. cbn [trace].
    rewrite !retrievals_app, retrievals_lookup, retrievals_retrieve.
    rewrite !cache_of_logged.
    replace (cache_of k _ !! key) with (cache_of k st !! key)
      by (by destruct k).
    split; [lia|exact Hc].
Qed.

End Counting.

(** C4, as the code has it.  With the cache of a kind in use, a run never
    retrieves a key of that kind with success more than once, and a
    directive whose key is in the cache calls no retrieval; a retrieval
    that fails leaves nothing in the cache, so that the next directive for
    the key calls the capability again.  With the cache of the kind not in
    use, every directive of the kind that is allowed and not escaped calls
    the capability once. *)
Theorem retrieval_count {T} `{CyclicOps T} (host : Host) (self : Config)
    k key (st : State T) :
  if cache_enabled self k then
    (∀ fuel lines,
       trace st = [] →
       successes k key (trace (fst (run host self fuel lines st))) ≤ 1)
    ∧ (∀ parent m,
         directive_target host self parent m = Some (k, key) →
         is_Some (cache_of k st !! key) →
         retrievals k key (trace (fst (fetch_directive host self parent m st)))
         = retrievals k key (trace st))
    ∧ (∀ parent m,
         directive_target host self parent m = Some (k, key) →
         cache_of k st !! key = None →
         retrievals k key (trace (fst (fetch_directive host self parent m st)))
         = S (retrievals k key (trace st))
         ∧ cache_of k (fst (fetch_directive host self parent m st)) !! key
           = body_lines
               <$> retrieve host k (trace st ++ [CacheLookup k key false]) key
                     (choose_encoding host self (g_encoding m)))
  else
    ∀ parent m,
      directive_target host self parent m = Some (k, key) →
      retrievals k key (trace (fst (fetch_directive host self parent m st)))
      = S (retrievals k key (trace st)).
Proof.
  destruct (cache_enabled self k) eqn:Hen.
  - split; [|split].
    + intros fuel lines Htr. by apply run_successes.
    + intros parent m. by apply fetch_directive_cached.
    + intros parent m. by apply fetch_directive_missed.
  - intros parent m. by apply fetch_directive_uncached.
Qed.

Lemma retrieval_count_witness :
  successes Local "two.md"
    (trace (fst (run Examples.range_host default_config 2
                   ["{! two.md !}{! two.md !}"] Sample.fresh))) ≤ 1
  ∧ retrievals Local "two.md"
      (trace (fst (fetch_directive Examples.range_host Examples.uncached_config
                     "" (Sample.plain 0 12 "two.md") Sample.fresh)))
    = 1
  ∧ (retrievals Local "gone.md"
       (trace (fst (fetch_directive Examples.range_host default_config ""
                      (Sample.plain 0 13 "gone.md") Sample.fresh)))
     = 1
     ∧ mdx_include_content_cache_local
         (fst (fetch_directive Examples.range_host default_config ""
                 (Sample.plain 0 13 "gone.md") Sample.fresh)) !! "gone.md"
       = None).
Proof.
  split; [|split].
  - exact (proj1 (retrieval_count Examples.range_host default_config Local
                    "two.md" Sample.fresh) 2 ["{! two.md !}{! two.md !}"]
             eq_refl).
  - exact (retrieval_count Examples.range_host Examples.uncached_config Local
             "two.md" Sample.fresh "" (Sample.plain 0 12 "two.md") eq_refl).
  - exact (proj2 (proj2 (retrieval_count Examples.range_host default_config
                           Local "gone.md" Sample.fresh))
             "" (Sample.plain 0 13 "gone.md") eq_refl eq_refl).
Defined.

(** C4 fails as stated: two directives of one line name a file that does
    not exist.  With the cache of local files in use the capability is
    called for the file twice. *)
Lemma failed_retrieval_is_repeated :
  content_cache_local default_config = true
  ∧ retrievals Local "gone.md"
      (trace (fst (run Examples.range_host default_config 2
                     ["{! gone.md !}{! gone.md !}"] Sample.fresh)))
    = 2.
Proof. split; vm_compute; reflexivity. Qed.

(** The same line for a file that exists, with the cache and without. *)
Example retrieval_of_existing_file :
  retrievals Local "two.md"
    (trace (fst (run Examples.range_host default_config 2
                   ["{! two.md !}{! two.md !}"] Sample.fresh))) = 1
  ∧ retrievals Local "two.md"
      (trace (fst (run Examples.range_host Examples.uncached_config 2
                     ["{! two.md !}{! two.md !}"] Sample.fresh))) = 2.
Proof. split; vm_compute; reflexivity. Qed.

(** ** The options of the extension *)

(** [setConfig] in full: an unknown key is a [KeyError]; a known key takes
    the value when the value is of the class of the current one ([None] and
    [bool] being one class), keeping the description, and is a [TypeError]
    otherwise. *)
Theorem setConfig_outcome key value
    (config : gmap string (IncludeExtension.PyVal * string)) :
  IncludeExtension.setConfig key value config
  = match config !! key with
    | None => inl (IncludeExtension.KeyError key)
    | Some (current, description) =>
        if decide (IncludeExtension.class value = IncludeExtension.class current)
        then inr (<[key := (value, description)]> config)
        else inl (IncludeExtension.TypeError key value)
    end.
Proof.
  unfold IncludeExtension.setConfig.
  destruct (config !! key) as [[current description]|].
  - destruct value, current; reflexivity.
  - destruct (_ || _); reflexivity.
Qed.

Lemma setConfig_accepted key value config config' :
  IncludeExtension.setConfig key value config = inr config' →
  ∃ current description,
    config !! key = Some (current, description)
    ∧ IncludeExtension.class value = IncludeExtension.class current
    ∧ config' = <[key := (value, description)]> config.
Proof.
  unfold IncludeExtension.setConfig.
  destruct (config !! key) as [[current description]|];
    [|destruct (_ || _); discriminate].
  destruct value, current; simpl; intros Hset; try discriminate;
    injection Hset as <-; by eexists _, _.
Qed.

Lemma setConfig_lookup key value config config' key' :
  IncludeExtension.setConfig key value config = inr config' →
  match config !! key' with
  | None => config' !! key' = None
  | Some (current, description) =>
      ∃ v, config' !! key' = Some (v, description)
           ∧ IncludeExtension.class v = IncludeExtension.class current
           ∧ v = (if decide (key = key') then value else current)
  end.
Proof.
  intros Hset.
  apply setConfig_accepted in Hset as (current & description & Hk & Hc & ->).
  destruct (decide (key = key')) as [<-|Hne].
  - rewrite Hk. exists value. by rewrite lookup_insert_eq.
  - rewrite lookup_insert_ne by exact Hne.
    destruct (config !! key') as [[cur' d']|]; [|reflexivity].
    by exists cur'.
Qed.

(** The loop of [__init__] keeps the options and the class of each: when
    it ends without exception the dictionary has the keys it had, each with
    its description and with a value of the class of the one it had. *)
Theorem set_all_keeps_classes configs config config' key :
  IncludeExtension.set_all configs config = inr config' →
  match config !! key with
  | None => config' !! key = None
  | Some (current, description) =>
      ∃ v, config' !! key = Some (v, description)
           ∧ IncludeExtension.class v = IncludeExtension.class current
  end.
Proof.
  revert config. induction configs as [|[k v] rest IH]; intros config; simpl.
  - intros [= <-]. destruct (config !! key) as [[cur d]|]; [|reflexivity].
    by exists cur.
  - destruct (IncludeExtension.setConfig k v config) as [e|config1] eqn:Hset;
      [discriminate|].
    intros Hrest. specialize (IH config1 Hrest).
    pose proof (setConfig_lookup _ _ _ _ key Hset) as H1.
    destruct (config !! key) as [[cur d]|].
    + destruct H1 as (v1 & Hv1 & Hc1 & _). rewrite Hv1 in IH.
      destruct IH as (v2 & Hv2 & Hc2). exists v2. split; [exact Hv2|congruence].
    + by rewrite H1 in IH.
Qed.

Lemma set_all_keeps_classes_witness :
  match MoreExamples.small_options !! "recurs_local" with
  | None => MoreExamples.small_options_after !! "recurs_local" = None
  | Some (current, description) =>
      ∃ v, MoreExamples.small_options_after !! "recurs_local"
           = Some (v, description)
           ∧ IncludeExtension.class v = IncludeExtension.class current
  end.
Proof.
  refine (set_all_keeps_classes MoreExamples.given_options
            MoreExamples.small_options MoreExamples.small_options_after
            "recurs_local" _).
  vm_compute. reflexivity.
Defined.

(** After the loop an option holds the last value given for it, and the
    value it had when none was given. *)
Theorem set_all_last_given configs config config' key :
  IncludeExtension.set_all configs config = inr config' →
  config' !! key
  = match IncludeExtension.last_given key configs with
    | Some v => (λ entry, (v, snd entry)) <$> config !! key
    | None => config !! key
    end.
Proof.
  revert config. induction configs as [|[k v] rest IH]; intros config; simpl.
  - by intros [= <-].
  - destruct (IncludeExtension.setConfig k v config) as [e|config1] eqn:Hset;
      [discriminate|].
    intros Hrest. rewrite (IH config1 Hrest).
    pose proof (setConfig_lookup _ _ _ _ key Hset) as H1.
    destruct (IncludeExtension.last_given key rest) as [v'|].
    + destruct (config !! key) as [[cur d]|].
      * destruct H1 as (v1 & -> & _). reflexivity.
      * by rewrite H1.
    + destruct (String.eqb_spec k key) as [->|Hne].
      * destruct (config !! key) as [[cur d]|].
        -- destruct H1 as (v1 & -> & _ & ->). by rewrite decide_True.
        -- by rewrite H1.
      * destruct (config !! key) as [[cur d]|].
        -- destruct H1 as (v1 & -> & _ & ->). by rewrite decide_False.
        -- by rewrite H1.
Qed.

Lemma set_all_last_given_witness :
  MoreExamples.small_options_after !! "recurs_local"
  = match IncludeExtension.last_given "recurs_local" MoreExamples.given_options
    with
    | Some v =>
        (λ entry, (v, snd entry)) <$> MoreExamples.small_options !! "recurs_local"
    | None => MoreExamples.small_options !! "recurs_local"
    end.
Proof.
  refine (set_all_last_given MoreExamples.given_options
            MoreExamples.small_options MoreExamples.small_options_after
            "recurs_local" _).
  vm_compute. reflexivity.
Defined.

(** A value of another class ends the loop of [__init__] with a
    [TypeError], a key that is no option with a [KeyError], and [None] is
    kept as the value of a boolean option. *)
Example setConfig_on_defaults :
  IncludeExtension.setConfig "allow_local" (IncludeExtension.VStr "yes")
    IncludeExtension.default_options
  = inl (IncludeExtension.TypeError "allow_local" (IncludeExtension.VStr "yes"))
  ∧ IncludeExtension.setConfig "base_path" IncludeExtension.VNone
      IncludeExtension.default_options
    = inl (IncludeExtension.TypeError "base_path" IncludeExtension.VNone)
  ∧ IncludeExtension.setConfig "no_such_option" (IncludeExtension.VBool true)
      IncludeExtension.default_options
    = inl (IncludeExtension.KeyError "no_such_option")
  ∧ (λ r, match r with
          | inr config => fst <$> config !! "recurs_local"
          | inl _ => None
          end)
      (IncludeExtension.setConfig "recurs_local" IncludeExtension.VNone
         IncludeExtension.default_options)
    = Some IncludeExtension.VNone.
Proof. repeat split; vm_compute; reflexivity. Qed.

(** ** The retrieval helpers of the module *)

Lemma append_cons c r t : String c r +:+ t = String c (r +:+ t).
Proof. reflexivity. Qed.

Lemma append_empty t : EmptyString +:+ t = t.
Proof. reflexivity. Qed.

Lemma splitlines_from_newline cur s :
  Py.splitlines_from cur (s +:+ String "010" EmptyString) ≠ [].
Proof.
  revert cur. induction s as [|c r IH]; intros cur.
  - rewrite append_empty. simpl. discriminate.
  - rewrite append_cons. simpl. destruct (Py.is_linebreak c); [discriminate|].
    apply IH.
Qed.

Lemma body_lines_not_nil body : body_lines body ≠ [].
Proof. apply splitlines_from_newline. Qed.

(** The two module-level helpers raise nothing, call the capability once
    and touch neither cache nor tracker; a failure comes as no line with
    status [False], a success as at least one line with status [True] (an
    empty body gives one empty line). *)
Theorem module_retrieval_outcome {T} (host : Host) filename enc (st : State T) :
  (∃ textl ok,
     mdx_include.get_local_content_list host filename enc st
     = (logged [Retrieve Local filename enc ok] st, Ok (textl, ok))
     ∧ if ok then textl ≠ [] else textl = [])
  ∧ (∃ textl ok,
       mdx_include.get_remote_content_list host filename enc st
       = (logged [Retrieve Remote filename enc ok] st, Ok (textl, ok))
       ∧ if ok then textl ≠ [] else textl = []).
Proof.
  split.
  - unfold mdx_include.get_local_content_list, bind, get_state.
    destruct (read_file host (trace st) filename enc) as [body|].
    + exists (body_lines body), true. split; [reflexivity|].
      apply body_lines_not_nil.
    + exists [], false. split; reflexivity.
  - unfold mdx_include.get_remote_content_list, bind, get_state.
    destruct (download host (trace st) filename enc) as [body|].
    + exists (body_lines body), true. split; [reflexivity|].
      apply body_lines_not_nil.
    + exists [], false. split; reflexivity.
Qed.

(** ** More on the caches *)

Section MoreCaches.

Context {T : Type} `{CyclicOps T}.
Variable host : Host.
Variable self : Config.

Lemma get_content_list_caches k key enc (st st1 : State T) textl :
  cache_enabled self k = true →
  get_content_list host self k key enc st = (st1, Ok (textl, true)) →
  cache_of k st1 !! key = Some textl.
Proof.
  intros Hen. rewrite get_content_list_spec, Hen.
  destruct (cache_of k st !! key) as [cached|] eqn:Hc.
  - intros [= <- <-]. by rewrite cache_of_logged.
  - destruct (retrieve _ _ _ _ _); [|discriminate].
    intros [= <- <-]. rewrite cache_of_logged. apply cache_of_stored_eq.
Qed.

(** What a kind of cache in use has once given for a key, it gives again:
    after lines were obtained for a key, and after any expansion that
    follows, the lines obtained for the key are the same ones, without a
    retrieval, whatever encoding is asked for and whatever the file or page
    holds by then. *)
Theorem cached_lines_are_reused k key enc enc' fuel lines parent
    (st st1 : State T) textl :
  cache_enabled self k = true →
  get_content_list host self k key enc st = (st1, Ok (textl, true)) →
  let st2 := fst (mdx_include_get_processed_lines host self fuel lines parent
                    st1) in
  get_content_list host self k key enc' st2
  = (logged [CacheLookup k key true] st2, Ok (textl, true)).
Proof.
  intros Hen Hget st2.
  pose proof (get_content_list_caches _ _ _ _ _ _ Hen Hget) as Hc.
  assert (Hc2 : cache_of k st2 !! key = Some textl).
  { eapply keeps_entries_lookup; [|exact Hc].
    apply keeps_entries_processed_lines, keeps_entries_refl. }
  rewrite get_content_list_spec, Hen, Hc2. reflexivity.
Qed.

(** A kind of cache that is not in use is left as it is by the whole
    expansion, however it ends. *)
Theorem unused_cache_is_untouched k fuel lines parent (st : State T) :
  cache_enabled self k = false →
  cache_of k (fst (mdx_include_get_processed_lines host self fuel lines
                     parent st))
  = cache_of k st.
Proof.
  intros Hen.
  apply (preserves_processed_lines host self
           (λ s, cache_of k s = cache_of k st)); [| | |reflexivity].
  - intros filename parent' s Hs. rewrite <- Hs. by destruct k.
  - intros filename enc s Hs. rewrite <- Hs.
    change (get_local_content_list host self filename enc s)
      with (get_content_list host self Local filename enc s).
    rewrite get_content_list_spec.
    destruct (decide (k = Local)) as [->|Hne].
    + rewrite Hen. destruct (retrieve _ _ _ _ _); reflexivity.
    + destruct (cache_enabled self Local); [|by destruct (retrieve _ _ _ _ _)].
      destruct (cache_of Local s !! filename); [reflexivity|].
      destruct (retrieve _ _ _ _ _); [|reflexivity].
      cbn [fst]. rewrite cache_of_logged.
      destruct k; [done|reflexivity].
  - intros filename enc s Hs. rewrite <- Hs.
    change (get_remote_content_list host self filename enc s)
      with (get_content_list host self Remote filename enc s).
    rewrite get_content_list_spec.
    destruct (decide (k = Remote)) as [->|Hne].
    + rewrite Hen. destruct (retrieve _ _ _ _ _); reflexivity.
    + destruct (cache_enabled self Remote); [|by destruct (retrieve _ _ _ _ _)].
      destruct (cache_of Remote s !! filename); [reflexivity|].
      destruct (retrieve _ _ _ _ _); [|reflexivity].
      cbn [fst]. rewrite cache_of_logged.
      destruct k; [reflexivity|done].
Qed.

End MoreCaches.

Lemma cached_lines_are_reused_witness :
  let st1 := fst (get_content_list Examples.range_host default_config Local
                    "two.md" "utf-8" Sample.fresh) in
  let st2 := fst (mdx_include_get_processed_lines Examples.range_host
                    default_config 2 ["{! two.md !}{! two.md !}"] "" st1) in
  snd (get_content_list Examples.range_host default_config Local "two.md"
         "latin-1" st2)
  = Ok (["first"; "second"], true).
Proof.
  intros st1 st2. subst st2.
  rewrite (cached_lines_are_reused Examples.range_host default_config Local
             "two.md" "utf-8" "latin-1" 2 ["{! two.md !}{! two.md !}"] ""
             Sample.fresh st1 ["first"; "second"]).
  - reflexivity.
  - reflexivity.
  - subst st1. vm_compute. reflexivity.
Defined.

Lemma unused_cache_is_untouched_witness :
  mdx_include_content_cache_local
    (fst (mdx_include_get_processed_lines Examples.range_host
            Examples.uncached_config 2 ["{! two.md !}{! two.md !}"] ""
            Sample.fresh))
  = ∅.
Proof.
  exact (unused_cache_is_untouched Examples.range_host Examples.uncached_config
           Local 2 ["{! two.md !}{! two.md !}"] "" Sample.fresh eq_refl).
Defined.

(** ** Kinds that are not allowed *)

Section ByFetch.

Context {T : Type} `{CyclicOps T}.
Variable host : Host.
Variable self : Config.
Variable P : State T → Prop.

Hypothesis P_fetch :
  ∀ parent m, preserves P (fetch_directive host self parent m).

Lemma preserves_process_match_by_fetch
    (recur : list string → string → M T (list string)) parent line acc m :
  (∀ lines parent', preserves P (recur lines parent')) →
  preserves P (process_match host self recur parent line acc m).
Proof.
  intros Hrecur. unfold process_match.
  apply preserves_bind.
  - unfold match_content. apply preserves_bind.
    + destruct (negb _); [|apply preserves_ret].
      intros st HP. rewrite include_directive_fetch. revert st HP.
      apply preserves_bind; [apply P_fetch|].
      intros [f|]; [|apply preserves_ret].
      apply preserves_bind; [by apply preserves_get_recursive|].
      intros; apply preserves_ret.
    + intros r. destruct (_ && _); apply preserves_ret.
  - intros textl. apply preserves_bind; [|intros; apply preserves_ret].
    unfold strip_content. destruct textl; [apply preserves_ret|].
    destruct (Py.truthy_opt (g_strip_indent m)); [|apply preserves_ret].
    unfold strip_common_indent.
    destruct (num_common_spaces _); [apply preserves_ret|apply preserves_raise].
Qed.

Lemma preserves_process_lines_by_fetch
    (recur : list string → string → M T (list string)) lines parent :
  (∀ lines' parent', preserves P (recur lines' parent')) →
  preserves P (process_lines host self recur lines parent).
Proof.
  intros Hrecur st HP. unfold process_lines.
  apply for_each_preserves; [|exact HP].
  clear st HP. intros new_lines line st HP. unfold process_line.
  revert st HP. apply preserves_bind; [|intros; apply preserves_ret].
  intros st HP. apply for_each_preserves; [|exact HP].
  intros acc m. by apply preserves_process_match_by_fetch.
Qed.

Lemma preserves_processed_lines_by_fetch fuel lines parent :
  preserves P (mdx_include_get_processed_lines host self fuel lines parent).
Proof.
  revert lines parent. induction fuel as [|fuel IH]; intros lines parent.
  - apply preserves_raise.
  - simpl. apply preserves_process_lines_by_fetch. exact IH.
Qed.

End ByFetch.

Section NotAllowed.

Context {T : Type} `{CyclicOps T}.
Variable host : Host.
Variable self : Config.

Lemma directive_target_allowed parent m k key :
  directive_target host self parent m = Some (k, key) → allowed self k = true.
Proof.
  unfold directive_target. destruct (Py.truthy _).
  - destruct (allow_remote self) eqn:Ha; [|discriminate]. by intros [= <- _].
  - destruct (allow_local self) eqn:Ha; [|discriminate]. by intros [= <- _].
Qed.

Lemma retrievals_other_kind k k' key key' enc ok :
  k ≠ k' → retrievals k key [Retrieve k' key' enc ok] = 0.
Proof.
  intros Hne. unfold retrievals. simpl. by rewrite (Kind_eqb_ne _ _ Hne).
Qed.

Lemma retrievals_store k key k' key' textl :
  retrievals k key [CacheStore k' key' textl] = 0.
Proof. reflexivity. Qed.

(** Reading through the cache of one kind changes nothing for the other. *)
Lemma get_content_list_other_kind k k' key key' enc (st : State T) :
  k ≠ k' →
  let st1 := fst (get_content_list host self k' key' enc st) in
  cache_of k st1 = cache_of k st
  ∧ retrievals k key (trace st1) = retrievals k key (trace st).
Proof.
  intros Hne st1. subst st1. rewrite get_content_list_spec.
  destruct (cache_enabled self k').
  - destruct (cache_of k' st !! key').
    + cbn [fst]. rewrite cache_of_logged, trace_logged, retrievals_app,
        retrievals_lookup. split; [reflexivity|lia].
    + destruct (retrieve _ _ _ _ _); cbn [fst].
      * rewrite !cache_of_logged, !trace_logged, trace_stored, !trace_logged,
          !retrievals_app, retrievals_lookup, retrievals_store,
          retrievals_other_kind by exact Hne.
        split; [|lia]. destruct k, k'; try done.
      * rewrite !cache_of_logged, !trace_logged, !retrievals_app,
          retrievals_lookup, retrievals_other_kind by exact Hne.
        split; [reflexivity|lia].
  - destruct (retrieve _ _ _ _ _); cbn [fst];
      rewrite cache_of_logged, trace_logged, retrievals_app,
        retrievals_other_kind by exact Hne; (split; [reflexivity|lia]).
Qed.

(** When the targets of a kind are not allowed, the whole expansion,
    however it ends, calls the retrieval capability of that kind for no
    key and leaves the cache of that kind as it is. *)
Theorem disallowed_kind_is_never_retrieved k key fuel lines parent
    (st : State T) :
  allowed self k = false →
  let st' := fst (mdx_include_get_processed_lines host self fuel lines parent
                    st) in
  retrievals k key (trace st') = retrievals k key (trace st)
  ∧ cache_of k st' = cache_of k st.
Proof.
  intros Hno st'. subst st'.
  apply (preserves_processed_lines_by_fetch host self
           (λ s, retrievals k key (trace s) = retrievals k key (trace st)
                 ∧ cache_of k s = cache_of k st)); [|done].
  intros parent' m s [Hr Hc]. rewrite fetch_directive_target.
  destruct (directive_target host self parent' m) as [[k' key']|] eqn:Ht;
    [|done].
  assert (Hne : k ≠ k').
  { intros ->. apply directive_target_allowed in Ht. congruence. }
  rewrite cyclic_add_state. cbn [fst].
  pose proof (get_content_list_other_kind k k' key key'
                (choose_encoding host self (g_encoding m))
                {| mdx_include_content_cache_local :=
                     mdx_include_content_cache_local s;
                   mdx_include_content_cache_remote :=
                     mdx_include_content_cache_remote s;
                   cyclic := Cyclic_add key' parent' (cyclic s);
                   trace := trace s |} Hne) as [Hc1 Hr1].
  destruct (get_content_list _ _ _ _ _ _) as [s1 [r|e]]; cbn [fst] in *.
  - rewrite Hr1, Hc1. split; [exact Hr|]. rewrite <- Hc. by destruct k.
  - rewrite Hr1, Hc1. split; [exact Hr|]. rewrite <- Hc. by destruct k.
Qed.

(** With neither kind allowed the expansion leaves the whole state as it
    is: nothing is retrieved, no cache is read or written, the tracker
    records nothing. *)
Theorem nothing_allowed_nothing_done fuel lines parent (st : State T) :
  allow_local self = false → allow_remote self = false →
  fst (mdx_include_get_processed_lines host self fuel lines parent st) = st.
Proof.
  intros Hl Hr.
  apply (preserves_processed_lines_by_fetch host self (λ s, s = st)); [|done].
  intros parent' m s ->. unfold fetch_directive. rewrite Hl, Hr.
  by destruct (Py.truthy _).
Qed.

End NotAllowed.

Lemma disallowed_kind_is_never_retrieved_witness :
  retrievals Remote "http://h/a"
    (trace (fst (mdx_include_get_processed_lines Examples.toggle_host
                   MoreExamples.no_remote_config 2 Examples.toggle_document ""
                   Sample.fresh)))
  = 0.
Proof.
  exact (proj1 (disallowed_kind_is_never_retrieved Examples.toggle_host
                  MoreExamples.no_remote_config Remote "http://h/a" 2
                  Examples.toggle_document "" Sample.fresh eq_refl)).
Defined.

Lemma nothing_allowed_nothing_done_witness :
  fst (mdx_include_get_processed_lines Examples.cycle_host
         MoreExamples.nothing_allowed_config 2 Examples.cycle_document ""
         Sample.fresh)
  = Sample.fresh.
Proof.
  exact (nothing_allowed_nothing_done Examples.cycle_host
           MoreExamples.nothing_allowed_config 2 Examples.cycle_document ""
           Sample.fresh eq_refl eq_refl).
Defined.

(** ** The loop over the lines *)

Section Lines.

Context {T : Type} `{CyclicOps T}.
Variable host : Host.
Variable self : Config.

Lemma set_last_length f resll : length (set_last f resll) = length resll.
Proof.
  induction resll as [|x r IH]; [reflexivity|].
  destruct r; [reflexivity|]. simpl in *. by rewrite IH.
Qed.

Lemma finish_line_length rest resll : 1 ≤ length (finish_line rest resll).
Proof.
  destruct resll as [|x r]; [simpl; lia|].
  unfold finish_line. cbv iota. rewrite set_last_length. simpl. lia.
Qed.

(** The lines produced so far only stand in front of what a line adds. *)
Lemma process_line_acc recur parent new_lines line (st : State T) :
  process_line host self recur parent new_lines line st
  = match process_line host self recur parent [] line st with
    | (st1, Ok out) => (st1, Ok (new_lines ++ out))
    | (st1, Raise e) => (st1, Raise e)
    end.
Proof.
  unfold process_line, bind.
  destruct (for_each _ _ _ st) as [st1 [acc|e]]; reflexivity.
Qed.

Lemma for_each_process_line_acc recur parent lines new_lines (st : State T) :
  for_each (process_line host self recur parent) lines new_lines st
  = match for_each (process_line host self recur parent) lines [] st with
    | (st1, Ok out) => (st1, Ok (new_lines ++ out))
    | (st1, Raise e) => (st1, Raise e)
    end.
Proof.
  revert new_lines st. induction lines as [|line lines IH]; intros new_lines st.
  - simpl. unfold ret. by rewrite app_nil_r.
  - simpl. unfold bind.
    rewrite (process_line_acc recur parent new_lines).
    destruct (process_line host self recur parent [] line st)
      as [st1 [out|e]]; [|reflexivity].
    rewrite (IH (new_lines ++ out)), (IH ([] ++ out)).
    destruct (for_each _ lines [] st1) as [st2 [out2|e]]; [|reflexivity].
    by rewrite app_assoc.
Qed.

(** The expansion of a document in two parts is the expansion of the first
    part followed, in the state it leaves, by the expansion of the second,
    and the lines of the two follow each other; an exception in the first
    part ends it. *)
Theorem processed_lines_app fuel l1 l2 parent (st : State T) :
  mdx_include_get_processed_lines host self (S fuel) (l1 ++ l2) parent st
  = match mdx_include_get_processed_lines host self (S fuel) l1 parent st with
    | (st1, Ok out1) =>
        match mdx_include_get_processed_lines host self (S fuel) l2 parent st1
        with
        | (st2, Ok out2) => (st2, Ok (out1 ++ out2))
        | (st2, Raise e) => (st2, Raise e)
        end
    | (st1, Raise e) => (st1, Raise e)
    end.
Proof.
  simpl. unfold process_lines. rewrite for_each_app. unfold bind.
  destruct (for_each _ l1 [] st) as [st1 [out1|e]]; [|reflexivity].
  apply for_each_process_line_acc.
Qed.

Lemma for_each_process_line_length recur parent lines (st st' : State T) out :
  for_each (process_line host self recur parent) lines [] st = (st', Ok out) →
  length lines ≤ length out.
Proof.
  revert st st' out.
  induction lines as [|line lines IH]; intros st st' out; simpl.
  - intros _. lia.
  - unfold bind.
    destruct (process_line host self recur parent [] line st)
      as [st1 [out1|e]] eqn:H1; [|discriminate].
    rewrite for_each_process_line_acc.
    destruct (for_each _ lines [] st1) as [st2 [out2|e]] eqn:H2;
      [|discriminate].
    intros [= _ <-]. rewrite length_app.
    specialize (IH _ _ _ H2).
    unfold process_line, bind in H1.
    destruct (for_each _ _ _ st) as [st3 [acc|e]]; [|discriminate].
    injection H1 as _ <-. simpl.
    pose proof (finish_line_length (Py.from acc.1 line) acc.2). lia.
Qed.

(** An expansion that returns gives at least one line for every line of
    its input. *)
Theorem processed_lines_length fuel lines parent (st st' : State T) out :
  mdx_include_get_processed_lines host self fuel lines parent st
  = (st', Ok out) →
  length lines ≤ length out.
Proof.
  destruct fuel as [|fuel]; [discriminate|]. simpl.
  apply for_each_process_line_length.
Qed.

(** A document in which the pattern finds nothing comes back as it is, in
    the state it was given, at any nesting bound but zero. *)
Theorem plain_document_is_unchanged fuel lines parent (st : State T) :
  (∀ line, line ∈ lines → finditer host line = []) →
  mdx_include_get_processed_lines host self (S fuel) lines parent st
  = (st, Ok lines).
Proof.
  intros Hplain. simpl. unfold process_lines.
  change lines with ([] ++ lines) at 2. generalize (@nil string) as acc.
  induction lines as [|line lines IH]; intros acc.
  - simpl. unfold ret. by rewrite app_nil_r.
  - simpl. unfold bind, process_line at 1.
    rewrite (Hplain line) by left. simpl. unfold bind, ret. simpl.
    rewrite IH by (intros l Hl; apply Hplain; by right).
    by rewrite <- app_assoc.
Qed.

End Lines.

Lemma processed_lines_length_witness :
  length ["{! a.md !} {!> b.md !}"] ≤ length ["A B1"; "B2"].
Proof.
  refine (processed_lines_length Examples.indent_host default_config 2
            ["{! a.md !} {!> b.md !}"] "" Sample.fresh
            (fst (mdx_include_get_processed_lines Examples.indent_host
                    default_config 2 ["{! a.md !} {!> b.md !}"] ""
                    Sample.fresh))
            ["A B1"; "B2"] _).
  vm_compute. reflexivity.
Defined.

Lemma plain_document_is_unchanged_witness :
  mdx_include_get_processed_lines Examples.empty_host default_config 1
    ["# Title"; "plain text"] "" Sample.fresh
  = (Sample.fresh, Ok ["# Title"; "plain text"]).
Proof.
  refine (plain_document_is_unchanged Examples.empty_host default_config 0
            ["# Title"; "plain text"] "" Sample.fresh _).
  intros line Hin.
  apply elem_of_cons in Hin as [->|Hin]; [reflexivity|].
  apply elem_of_cons in Hin as [->|Hin]; [reflexivity|].
  by apply elem_of_nil in Hin.
Defined.

(** ** The bound on the nesting *)

Section Bound.

Context {T : Type} `{CyclicOps T}.
Variable host : Host.
Variable self : Config.

Lemma refines_refl {A} (x : M T A) : refines x x.
Proof. intros st st' r Hx _. exact Hx. Qed.

Lemma refines_bind {A B} (x y : M T A) (f g : A → M T B) :
  refines x y → (∀ a, refines (f a) (g a)) → refines (bind x f) (bind y g).
Proof.
  intros Hxy Hfg st st' r. unfold bind.
  destruct (x st) as [st1 [a|e]] eqn:Hx.
  - assert (Hy : y st = (st1, Ok a)) by (apply Hxy; [exact Hx|discriminate]).
    rewrite Hy. apply Hfg.
  - intros [= <- <-] Hne.
    assert (Hy : y st = (st1, Raise e))       by (apply Hxy; [exact Hx|intros [= ->]; by apply Hne]).
    by rewrite Hy.
Qed.

Lemma refines_for_each {A B} (f g : B → A → M T B) xs acc :
  (∀ acc x, refines (f acc x) (g acc x)) →
  refines (for_each f xs acc) (for_each g xs acc).
Proof.
  intros Hfg. revert acc. induction xs as [|x xs IH]; intros acc; simpl.
  - apply refines_refl.
  - apply refines_bind; [apply Hfg|exact IH].
Qed.

Lemma refines_process_lines recur1 recur2 lines parent :
  (∀ lines' parent', refines (recur1 lines' parent') (recur2 lines' parent')) →
  refines (process_lines host self recur1 lines parent)
    (process_lines host self recur2 lines parent).
Proof.
  intros Hrec. unfold process_lines.
  apply refines_for_each. intros new_lines line. unfold process_line.
  apply refines_bind; [|intros; apply refines_refl].
  apply refines_for_each. intros acc m. unfold process_match.
  apply refines_bind; [|intros; apply refines_refl].
  unfold match_content.
  apply refines_bind; [|intros; apply refines_refl].
  destruct (negb _); [|apply refines_refl].
  unfold include_directive.
  assert (Hget : ∀ textl filename recursive,
            refines
              (get_recursive_content_list self recur1 textl filename parent
                 recursive (g_recursive m))
              (get_recursive_content_list self recur2 textl filename parent
                 recursive (g_recursive m))).
  { intros textl filename recursive.
    rewrite !get_recursive_content_list_effective.
    destruct (effective_recursion _ _ _); [|apply refines_refl].
    unfold mdx_include_get_cyclic_safe_processed_line_list.
    apply refines_bind; [apply refines_refl|]. intros s.
    destruct (negb _); [apply Hrec|apply refines_refl]. }
  destruct (Py.truthy _).
  - destruct (allow_remote self); [|apply refines_refl].
    apply refines_bind; [apply refines_refl|]. intros _.
    apply refines_bind; [apply refines_refl|]. intros r.
    apply refines_bind; [apply Hget|intros; apply refines_refl].
  - destruct (allow_local self); [|apply refines_refl].
    apply refines_bind; [apply refines_refl|]. intros _.
    apply refines_bind; [apply refines_refl|]. intros r.
    apply refines_bind; [apply Hget|intros; apply refines_refl].
Qed.

Lemma refines_succ fuel lines parent :
  refines (mdx_include_get_processed_lines host self fuel lines parent)
    (mdx_include_get_processed_lines host self (S fuel) lines parent).
Proof.
  revert lines parent. induction fuel as [|fuel IH]; intros lines parent.
  - intros st st' r [= <- <-] Hne. by destruct Hne.
  - change (refines
              (process_lines host self
                 (mdx_include_get_processed_lines host self fuel) lines parent)
              (process_lines host self
                 (mdx_include_get_processed_lines host self (S fuel)) lines
                 parent)).
    apply refines_process_lines. exact IH.
Qed.

(** The bound on the nesting only matters when it is reached: an
    expansion that returns, or that raises an exception of Python, does
    the same, and leaves the same state, under every larger bound. *)
Lemma enough_fuel_is_enough fuel fuel' lines parent (st st' : State T) r :
  mdx_include_get_processed_lines host self fuel lines parent st = (st', r) →
  r ≠ Raise OutOfFuel →
  fuel ≤ fuel' →
  mdx_include_get_processed_lines host self fuel' lines parent st = (st', r).
Proof.
  intros Hrun Hne Hle. induction Hle as [|fuel' Hle IH]; [exact Hrun|].
  by apply refines_succ.
Qed.

End Bound.

(** ** The exceptions of a run *)

Section Exceptions.

Context {T : Type} `{CyclicOps T}.
Variable host : Host.
Variable self : Config.

Lemma raises_only_ret {A} Q (a : A) : raises_only Q (@ret T A a).
Proof. intros st st' e. discriminate. Qed.

Lemma raises_only_bind {A B} Q (x : M T A) (f : A → M T B) :
  raises_only Q x → (∀ a, raises_only Q (f a)) → raises_only Q (bind x f).
Proof.
  intros Hx Hf st st' e. unfold bind.
  destruct (x st) as [st1 [a|e1]] eqn:Ex.
  - apply Hf.
  - intros [= <- <-]. eapply Hx, Ex.
Qed.

Lemma raises_only_for_each {A B} Q (f : B → A → M T B) xs acc :
  (∀ acc x, x ∈ xs → raises_only Q (f acc x)) →
  raises_only Q (for_each f xs acc).
Proof.
  revert acc. induction xs as [|x xs IH]; intros acc Hf; simpl.
  - apply raises_only_ret.
  - apply raises_only_bind; [apply Hf; by left|].
    intros acc'. apply IH. intros acc'' y Hy. apply Hf. by right.
Qed.

Lemma raises_only_fetch_directive Q parent m :
  raises_only Q (fetch_directive host self parent m).
Proof.
  intros st st' e. rewrite fetch_directive_target.
  destruct (directive_target _ _ _ _) as [[k key]|]; [|discriminate].
  destruct (get_content_list_total host self k key
              (choose_encoding host self (g_encoding m))
              (fst (cyclic_add key parent st)))
    as (st1 & textl & stat & -> & _).
  discriminate.
Qed.

Lemma raises_only_process_lines Q recur lines parent :
  (allow_circular_inclusion self = false → ∀ msg, Q (RuntimeError msg)) →
  (∀ line m msg, m ∈ finditer host line →
                 Py.truthy_opt (g_strip_indent m) = true →
                 Q (ValueError msg)) →
  (∀ lines' parent', raises_only Q (recur lines' parent')) →
  raises_only Q (process_lines host self recur lines parent).
Proof.
  intros HQr HQv Hrec. unfold process_lines.
  apply raises_only_for_each. intros new_lines line _. unfold process_line.
  apply raises_only_bind; [|intros; apply raises_only_ret].
  apply raises_only_for_each. intros acc m Hm. unfold process_match.
  apply raises_only_bind.
  - unfold match_content.
    apply raises_only_bind;
      [|intros r; destruct (_ && _); apply raises_only_ret].
    destruct (negb _); [|apply raises_only_ret].
    intros st st' e. rewrite include_directive_fetch. revert st st' e.
    apply raises_only_bind; [apply raises_only_fetch_directive|].
    intros [f|]; [|apply raises_only_ret].
    apply raises_only_bind; [|intros; apply raises_only_ret].
    rewrite get_recursive_content_list_effective.
    destruct (effective_recursion _ _ _); [|apply raises_only_ret].
    unfold mdx_include_get_cyclic_safe_processed_line_list.
    intros st st' e. unfold bind, get_state.
    destruct (negb _); [apply Hrec|].
    destruct (allow_circular_inclusion self) eqn:Ha; [discriminate|].
    intros [= _ <-]. by apply HQr.
  - intros textl. apply raises_only_bind; [|intros; apply raises_only_ret].
    unfold strip_content. destruct textl as [|t0 rest]; [apply raises_only_ret|].
    destruct (Py.truthy_opt (g_strip_indent m)) eqn:Hs;
      [|apply raises_only_ret].
    unfold strip_common_indent.
    destruct (num_common_spaces _); [apply raises_only_ret|].
    intros st st' e [= _ <-]. by eapply HQv.
Qed.

End Exceptions.

(** ** Recursion switched off *)

Section NoRecursion.

Context {T : Type} `{CyclicOps T}.
Variable host : Host.
Variable self : Config.

Lemma for_each_ext {A B} (f g : B → A → M T B) xs acc (st : State T) :
  (∀ acc x st, f acc x st = g acc x st) →
  for_each f xs acc st = for_each g xs acc st.
Proof.
  intros Hfg. revert acc st. induction xs as [|x xs IH]; intros acc st; simpl.
  - reflexivity.
  - unfold bind. rewrite Hfg. destruct (g acc x st) as [st1 [a|e]];
      [apply IH|reflexivity].
Qed.

Lemma process_lines_without_recursion recur1 recur2 lines parent
    (st : State T) :
  recurs_local self = Some false → recurs_remote self = Some false →
  process_lines host self recur1 lines parent st
  = process_lines host self recur2 lines parent st.
Proof.
  intros Hl Hr. unfold process_lines.
  apply for_each_ext. intros new_lines line st1. unfold process_line.
  apply bind_ext_l. apply for_each_ext. intros acc m st2.
  unfold process_match. apply bind_ext_l. unfold match_content.
  apply bind_ext_l. destruct (negb _); [|reflexivity].
  unfold include_directive. rewrite Hl, Hr. reflexivity.
Qed.

(** With [recurs_local] and [recurs_remote] both [False] no directive of
    an included text is ever processed: the expansion makes no nested call,
    so that the smallest bound gives its result, whatever the files hold. *)
Theorem no_recursion_no_nesting fuel lines parent (st : State T) :
  recurs_local self = Some false → recurs_remote self = Some false →
  mdx_include_get_processed_lines host self (S fuel) lines parent st
  = mdx_include_get_processed_lines host self 1 lines parent st
  ∧ snd (mdx_include_get_processed_lines host self 1 lines parent st)
    ≠ Raise OutOfFuel.
Proof.
  intros Hl Hr. split.
  - simpl. by apply process_lines_without_recursion.
  - simpl.
    rewrite (process_lines_without_recursion
               (mdx_include_get_processed_lines host self 0)
               (λ _ _, ret []) lines parent st Hl Hr).
    destruct (process_lines host self (λ _ _, ret []) lines parent st)
      as [st1 [out|e]] eqn:Hp; [discriminate|].
    simpl. intros [= ->].
    assert (Hnever : raises_only (λ e, e ≠ OutOfFuel)
              (process_lines host self (λ _ _, ret []) lines parent)).
    { apply raises_only_process_lines.
      - discriminate.
      - discriminate.
      - intros lines' parent'. apply raises_only_ret. }
    by apply (Hnever _ _ _ Hp).
Qed.

End NoRecursion.

Lemma no_recursion_no_nesting_witness :
  mdx_include_get_processed_lines Examples.cycle_host MoreExamples.flat_config
    6 Examples.cycle_document "" Sample.fresh
  = mdx_include_get_processed_lines Examples.cycle_host
      MoreExamples.flat_config 1 Examples.cycle_document "" Sample.fresh.
Proof.
  exact (proj1 (no_recursion_no_nesting Examples.cycle_host
                  MoreExamples.flat_config 5 Examples.cycle_document ""
                  Sample.fresh eq_refl eq_refl)).
Defined.

(** The two files include each other, and with recursion off the document
    gets the line of the first file as it is. *)
Example no_recursion_run :
  snd (run Examples.cycle_host MoreExamples.flat_config 1
         Examples.cycle_document Sample.fresh)
  = Ok ["{! b.md !}"].
Proof. vm_compute. reflexivity. Qed.

(** ** The caches after a run that returns *)

Section AfterRun.

Context {T : Type} `{CyclicOps T}.
Variable host : Host.
Variable self : Config.

(** When [run] returns, a cache whose cleaning option is set is empty, and
    a cache whose cleaning option is not set holds every entry it held
    before the run and every entry stored during the run. *)
Theorem run_return_and_caches fuel lines (st st' : State T) out k :
  run host self fuel lines st = (st', Ok out) →
  ∃ evs, trace st' = trace st ++ evs
    ∧ if match k with
         | Local => content_cache_clean_local self
         | Remote => content_cache_clean_remote self
         end
      then cache_of k st' = ∅
      else cache_of k st ⊆ cache_of k st'
           ∧ ∀ key textl, CacheStore k key textl ∈ evs →
                          cache_of k st' !! key = Some textl.
Proof.
  rewrite run_unfold.
  pose proof (keeps_entries_processed_lines host self (with_new_tracker st)
                fuel lines "" (with_new_tracker st) (keeps_entries_refl _))
    as Hk.
  destruct (mdx_include_get_processed_lines _ _ _ _ _ _) as [st1 [out1|e]];
    [|discriminate].
  destruct Hk as (Hl & Hr & evs & Htr & Hst). cbn [fst] in *.
  intros [= <- _]. exists evs.
  destruct (content_cache_clean_local self),
    (content_cache_clean_remote self), k; simpl;
    (split; [exact Htr|]); try reflexivity;
    (split; [assumption|]); intros key textl Hin;
    (apply (Hst Local key textl Hin) || apply (Hst Remote key textl Hin)).
Qed.

End AfterRun.

Lemma run_return_and_caches_witness :
  ∃ evs,
    trace (fst (run Examples.range_host Examples.cleaning_config 2
                  ["{! two.md [ln:1] !}"] Sample.fresh))
    = trace Sample.fresh ++ evs
    ∧ cache_of Local
        (fst (run Examples.range_host Examples.cleaning_config 2
                ["{! two.md [ln:1] !}"] Sample.fresh))
      = ∅.
Proof.
  refine (run_return_and_caches Examples.range_host Examples.cleaning_config 2
            ["{! two.md [ln:1] !}"] Sample.fresh _ ["first"] Local _).
  vm_compute. reflexivity.
Defined.

(** ** The encoding of a directive *)

(** An encoding that Python does not have counts as no encoding: the
    directive is included as if it named none, with the configured
    encoding, and is not failed for it. *)
Theorem unknown_encoding_falls_back {T} `{CyclicOps T} (host : Host)
    (self : Config) (recur : list string → string → M T (list string))
    parent m enc (st : State T) :
  mdx_include.encoding_exists host enc = false →
  include_directive host self recur parent (with_encoding enc m) st
  = include_directive host self recur parent (with_encoding None m) st
  ∧ choose_encoding host self enc = encoding self.
Proof.
  intros Hno.
  assert (Hc : choose_encoding host self enc = encoding self).
  { unfold choose_encoding. destruct enc; [by rewrite Hno|reflexivity]. }
  split; [|exact Hc].
  unfold include_directive. simpl. rewrite Hc. reflexivity.
Qed.

Lemma unknown_encoding_falls_back_witness :
  choose_encoding Examples.tilde_host default_config (Some "klingon") = "utf-8".
Proof.
  exact (proj2 (unknown_encoding_falls_back Examples.tilde_host default_config
                  (mdx_include_get_processed_lines Examples.tilde_host
                     default_config 1)
                  "" Examples.tilde_match (Some "klingon") Sample.fresh
                  eq_refl)).
Defined.

(** ** More on the common indent *)

Lemma upto_from n s : Py.upto n s +:+ Py.from n s = s.
Proof.
  revert s. induction n as [|n IH]; intros s; [reflexivity|].
  destruct s as [|c r]; [reflexivity|]. simpl. rewrite append_cons.
  by rewrite IH.
Qed.

Lemma lstrip_length s : String.length (Py.lstrip s) ≤ String.length s.
Proof.
  induction s as [|c r IH]; simpl; [lia|].
  destruct (Py.isspace c); simpl; lia.
Qed.

Lemma indent_width_leading s : indent_width s = leading_spaces s.
Proof.
  unfold indent_width. induction s as [|c r IH]; simpl; [reflexivity|].
  destruct (Py.isspace c); simpl; [|lia].
  pose proof (lstrip_length r). lia.
Qed.

Lemma rstrip_empty s : Py.rstrip s = EmptyString ↔ nonblank s = false.
Proof.
  induction s as [|c r IH]; simpl; [done|].
  destruct (Py.rstrip r) as [|c' r'] eqn:Hr.
  - rewrite (proj1 IH eq_refl), orb_false_r.
    destruct (Py.isspace c); simpl; split; done.
  - destruct (nonblank r); [|by destruct IH as [_ IH]; discriminate (IH eq_refl)].
    rewrite orb_true_r. split; discriminate.
Qed.

Lemma nonblank_rstrip s : nonblank (Py.rstrip s) = nonblank s.
Proof.
  induction s as [|c r IH]; simpl; [reflexivity|].
  destruct (Py.rstrip r) as [|c' r'] eqn:Hr.
  - rewrite (proj1 (rstrip_empty r) Hr), orb_false_r.
    destruct (Py.isspace c) eqn:Hc; simpl; rewrite ?Hc; reflexivity.
  - change (nonblank (String c (String c' r'))) with
      (negb (Py.isspace c) || nonblank (String c' r')).
    by rewrite IH.
Qed.

Lemma lstrip_truthy s : Py.truthy (Py.lstrip s) = nonblank s.
Proof.
  induction s as [|c r IH]; simpl; [reflexivity|].
  destruct (Py.isspace c); simpl; [exact IH|reflexivity].
Qed.

(** [item.strip()] is true exactly of the lines with a character that is
    not white space. *)
Lemma strip_truthy s : Py.truthy (Py.strip s) = nonblank s.
Proof. unfold Py.strip. by rewrite lstrip_truthy, nonblank_rstrip. Qed.

Lemma from_within_margin n s :
  n ≤ leading_spaces s →
  leading_spaces (Py.from n s) = leading_spaces s - n
  ∧ nonblank (Py.from n s) = nonblank s
  ∧ all_space (Py.upto n s) = true
  ∧ String.length (Py.upto n s) = n.
Proof.
  revert s. induction n as [|n IH]; intros s Hn.
  - simpl. rewrite Nat.sub_0_r. by destruct s.
  - destruct s as [|c r]; simpl in Hn; [lia|].
    destruct (Py.isspace c) eqn:Hc; [|lia].
    destruct (IH r ltac:(lia)) as (H1 & H2 & H3 & H4).
    simpl. rewrite Hc. simpl. unfold all_space in *. simpl. rewrite Hc. simpl.
    repeat split; [exact H1|exact H2|exact H3|by rewrite H4].
Qed.

Lemma from_blank n s : nonblank s = false → nonblank (Py.from n s) = false.
Proof.
  revert s. induction n as [|n IH]; intros s Hs; [by destruct s|].
  destruct s as [|c r]; [reflexivity|]. simpl in *.
  apply orb_false_iff in Hs as [_ Hs]. by apply IH.
Qed.

Lemma foldl_min_attained x xs : foldl Nat.min x xs ∈ x :: xs.
Proof.
  revert x. induction xs as [|y xs IH]; intros x; simpl; [by left|].
  specialize (IH (Nat.min x y)).
  apply elem_of_cons in IH as [->|IH].
  - destruct (Nat.min_dec x y) as [->| ->]; [by left|right; by left].
  - right. by right.
Qed.

Lemma min_attained xs n : Py.min xs = Some n → n ∈ xs.
Proof.
  destruct xs as [|x xs]; [discriminate|]. simpl. intros [= <-].
  apply foldl_min_attained.
Qed.

Lemma num_common_spaces_spec textl n :
  num_common_spaces textl = Some n →
  (∀ item, item ∈ textl → nonblank item = true → n ≤ leading_spaces item)
  ∧ ∃ item, item ∈ textl ∧ nonblank item = true ∧ leading_spaces item = n.
Proof.
  unfold num_common_spaces. intros Hn. split.
  - intros item Hin Hnb. rewrite <- indent_width_leading.
    eapply min_lower; [exact Hn|].
    apply list_elem_of_fmap. exists item. split; [reflexivity|].
    apply list_elem_of_filter. by rewrite strip_truthy.
  - apply min_attained, list_elem_of_fmap in Hn as (item & -> & Hin).
    apply list_elem_of_filter in Hin as [Hnb Hin].
    exists item. rewrite strip_truthy in Hnb.
    by rewrite indent_width_leading.
Qed.

(** What strip-indent removes, when it raises nothing: one number [n] of
    characters from the start of every line, and from a line that is not
    blank these are [n] characters of white space, so that the line is its
    margin followed by what is kept of it.  The state is not touched. *)
Theorem strip_common_indent_margin {T} textl (st st' : State T) out :
  strip_common_indent textl st = (st', Ok out) →
  st' = st
  ∧ ∃ n, out = map (Py.from n) textl
         ∧ ∀ item, item ∈ textl → Py.truthy (Py.strip item) = true →
             ∃ margin, item = margin +:+ Py.from n item
                       ∧ String.length margin = n
                       ∧ all_space margin = true.
Proof.
  unfold strip_common_indent.
  destruct (num_common_spaces textl) as [n|] eqn:Hn; [|discriminate].
  intros [= <- <-]. split; [reflexivity|]. exists n. split; [reflexivity|].
  intros item Hin Hnb. rewrite strip_truthy in Hnb.
  destruct (num_common_spaces_spec _ _ Hn) as [Hlow _].
  destruct (from_within_margin n item (Hlow item Hin Hnb)) as (_ & _ & H3 & H4).
  exists (Py.upto n item). by rewrite upto_from.
Qed.

Lemma strip_common_indent_margin_witness :
  ∃ n, ["  a"; "b"; ""] = map (Py.from n) ["    a"; "  b"; ""]
       ∧ ∀ item, item ∈ ["    a"; "  b"; ""] →
           Py.truthy (Py.strip item) = true →
           ∃ margin, item = margin +:+ Py.from n item
                     ∧ String.length margin = n
                     ∧ all_space margin = true.
Proof.
  refine (proj2 (strip_common_indent_margin ["    a"; "  b"; ""]
                   Sample.fresh Sample.fresh ["  a"; "b"; ""] _)).
  reflexivity.
Defined.

Lemma starts_nonspace_of_margin s :
  nonblank s = true → leading_spaces s = 0 → starts_nonspace s = true.
Proof.
  destruct s as [|c r]; [discriminate|]. simpl.
  destruct (Py.isspace c); [discriminate|reflexivity].
Qed.

Lemma from_zero s : Py.from 0 s = s.
Proof. by destruct s. Qed.

(** After strip-indent some line starts with a character that is not
    white space, so that stripping what was stripped changes nothing. *)
Theorem strip_common_indent_idempotent {T} textl (st st' : State T) out :
  strip_common_indent textl st = (st', Ok out) →
  strip_common_indent out st = (st, Ok out)
  ∧ ∃ item, item ∈ out ∧ starts_nonspace item = true.
Proof.
  unfold strip_common_indent at 1.
  destruct (num_common_spaces textl) as [n|] eqn:Hn; [|discriminate].
  intros [= <- <-].
  destruct (num_common_spaces_spec _ _ Hn) as [Hlow (item0 & Hin0 & Hnb0 & Hl0)].
  destruct (from_within_margin n item0 ltac:(lia)) as (H1 & H2 & _ & _).
  assert (Hin : Py.from n item0 ∈ map (Py.from n) textl).
  { apply list_elem_of_fmap. by exists item0. }
  assert (Hstart : starts_nonspace (Py.from n item0) = true).
  { apply starts_nonspace_of_margin; [by rewrite H2|]. rewrite H1. lia. }
  split; [|by exists (Py.from n item0)].
  unfold strip_common_indent.
  destruct (num_common_spaces (map (Py.from n) textl)) as [n'|] eqn:Hn'.
  - destruct (num_common_spaces_spec _ _ Hn') as [Hlow' _].
    specialize (Hlow' _ Hin ltac:(by rewrite H2)).
    assert (n' = 0) as -> by (rewrite H1 in Hlow'; lia).
    unfold ret. do 2 f_equal.
    rewrite <- (list_fmap_id (map (Py.from n) textl)) at 2.
    apply list_fmap_ext. intros _ item _. apply from_zero.
  - exfalso. unfold num_common_spaces in Hn'.
    assert (He : Py.from n item0
                 ∈ filter (λ item, Py.truthy (Py.strip item) = true)
                     (map (Py.from n) textl)).
    { apply list_elem_of_filter. split; [|exact Hin].
      by rewrite strip_truthy, H2. }
    destruct (filter _ _); [by apply elem_of_nil in He|discriminate].
Qed.

Lemma strip_common_indent_idempotent_witness :
  strip_common_indent ["  a"; "b"; ""] Sample.fresh
  = (Sample.fresh, Ok ["  a"; "b"; ""]).
Proof.
  refine (proj1 (strip_common_indent_idempotent ["    a"; "  b"; ""]
                   Sample.fresh Sample.fresh ["  a"; "b"; ""] _)).
  reflexivity.
Defined.

(** ** The text of a line through the splice *)

Lemma append_assoc (a b c : string) : (a +:+ b) +:+ c = a +:+ b +:+ c.
Proof.
  induction a as [|x a IH]; [reflexivity|].
  rewrite !append_cons. by rewrite IH.
Qed.

Lemma append_empty_r (a : string) : a +:+ EmptyString = a.
Proof.
  induction a as [|x a IH]; [reflexivity|]. rewrite append_cons. by rewrite IH.
Qed.

Lemma flat_app l1 l2 : flat (l1 ++ l2) = flat l1 +:+ flat l2.
Proof.
  induction l1 as [|x l1 IH]; [reflexivity|]. simpl.
  by rewrite IH, append_assoc.
Qed.

Lemma flat_set_last_cons x r0 resll :
  flat (set_last (λ last, last +:+ x) (r0 :: resll))
  = flat (r0 :: resll) +:+ x.
Proof.
  revert r0. induction resll as [|r1 resll IH]; intros r0.
  - simpl. by rewrite !append_empty_r.
  - change (set_last (λ last, last +:+ x) (r0 :: r1 :: resll))
      with (r0 :: set_last (λ last, last +:+ x) (r1 :: resll)).
    change (flat (r0 :: r1 :: resll)) with (r0 +:+ flat (r1 :: resll)).
    rewrite append_assoc, <- IH. reflexivity.
Qed.

Lemma flat_set_last x resll :
  resll ≠ [] → flat (set_last (λ last, last +:+ x) resll) = flat resll +:+ x.
Proof.
  destruct resll as [|r0 resll]; [done|]. intros _. apply flat_set_last_cons.
Qed.

(** The splice loses no text and repeats none, as long as apply-indent
    does not come into play: read without line breaks, the buffer of the
    line after a match is the buffer before it, then the text between the
    matches, then the content.  The same holds of the end of the line. *)
Theorem splice_keeps_text prefix apply_indent resll textl rest :
  resll ≠ [] ∨ apply_indent = Some EmptyString ∨ length textl ≤ 1 →
  flat (splice prefix apply_indent resll textl)
  = flat resll +:+ prefix +:+ flat textl
  ∧ flat (finish_line rest resll) = flat resll +:+ rest.
Proof.
  intros Hcase. split.
  - unfold splice. destruct textl as [|t0 textl].
    + rewrite flat_app. simpl. by rewrite !append_empty_r.
    + destruct resll as [|r0 resll].
      * destruct (bool_decide (apply_indent ≠ Some EmptyString)) eqn:Hb.
        -- apply bool_decide_eq_true in Hb.
           destruct Hcase as [Hc|[Hc|Hc]]; [done|done|].
           destruct textl; [|simpl in Hc; lia].
           simpl. by rewrite !append_empty_r.
        -- simpl. by rewrite append_assoc.
      * rewrite flat_app, flat_set_last by done.
        simpl flat. by rewrite !append_assoc.
  - unfold finish_line. destruct resll as [|r0 resll].
    + simpl. by rewrite append_empty_r.
    + by rewrite flat_set_last.
Qed.

Lemma splice_keeps_text_witness :
  flat (splice " and " (Some ">") ["x"; "y"] ["a"; "b"]) = "xy and ab"
  ∧ flat (finish_line "." ["x"; "y"]) = "xy.".
Proof.
  assert (Hcase : ["x"; "y"] ≠ @nil string
                  ∨ Some ">" = Some EmptyString
                  ∨ length ["a"; "b"] ≤ 1).
  { left. discriminate. }
  pose proof (splice_keeps_text " and " (Some ">") ["x"; "y"] ["a"; "b"] "."
                Hcase) as Hw.
  split; [rewrite (proj1 Hw)|rewrite (proj2 Hw)]; reflexivity.
Defined.

(** ** Directives that give nothing *)

Section Truncated.

Context {T : Type} `{CyclicOps T}.
Variable host : Host.
Variable self : Config.
Variable recur : list string → string → M T (list string).

Hypothesis no_local : allow_local self = false.
Hypothesis no_remote : allow_remote self = false.
Hypothesis truncate : truncate_on_failure self = true.

Lemma process_match_truncated parent line acc m (st : State T) :
  Py.truthy_opt (g_escape m) = false →
  process_match host self recur parent line acc m st
  = (st, Ok (m_end m, snd acc ++ [Py.slice (fst acc) (m_start m) line])).
Proof.
  intros Hesc. unfold process_match, match_content, include_directive.
  rewrite Hesc, no_local, no_remote, truncate.
  by destruct (Py.truthy _).
Qed.

Lemma for_each_truncated parent line ms c resll (st : State T) :
  (∀ m, m ∈ ms → Py.truthy_opt (g_escape m) = false) →
  for_each (process_match host self recur parent line) ms (c, resll) st
  = (st, Ok (last_end c ms, resll ++ gaps line c ms)).
Proof.
  revert c resll. induction ms as [|m ms IH]; intros c resll Hesc.
  - simpl. unfold ret. by rewrite app_nil_r.
  - simpl. unfold bind.
    rewrite process_match_truncated by (apply Hesc; by left).
    rewrite IH by (intros m' Hm'; apply Hesc; by right).
    simpl. by rewrite <- app_assoc.
Qed.

Lemma gaps_length line c ms : length (gaps line c ms) = length ms.
Proof.
  revert c. induction ms as [|m ms IH]; intros c; simpl; [reflexivity|].
  by rewrite IH.
Qed.

End Truncated.

(** With no kind of target allowed and [truncate_on_failure] set, every
    directive that is not escaped gives no content, and yet the second and
    each later directive of a line starts a new line: the line comes out as
    the pieces before each of its directives, one per output line, the
    last of them followed by the rest of the line.  A line with [k]
    directives, [k] not zero, comes out as [k] lines. *)
Theorem truncated_directives_split_line {T} `{CyclicOps T} (host : Host)
    (self : Config) (recur : list string → string → M T (list string))
    parent new_lines line (st : State T) :
  allow_local self = false → allow_remote self = false →
  truncate_on_failure self = true →
  (∀ m, m ∈ finditer host line → Py.truthy_opt (g_escape m) = false) →
  let ms := finditer host line in
  let out := finish_line (Py.from (last_end 0 ms) line) (gaps line 0 ms) in
  process_line host self recur parent new_lines line st
  = (st, Ok (new_lines ++ out))
  ∧ length out = Nat.max 1 (length ms).
Proof.
  intros Hl Hr Ht Hesc ms out. split.
  - unfold process_line.
    erewrite bind_Ok; [|by apply for_each_truncated]. reflexivity.
  - subst out. unfold finish_line.
    pose proof (gaps_length line 0 ms) as Hg.
    destruct (gaps line 0 ms) as [|g gs] eqn:Eg.
    + simpl in *. rewrite <- Hg. reflexivity.
    + rewrite set_last_length, Hg. destruct ms; simpl in *; lia.
Qed.

Lemma truncated_directives_split_line_witness :
  process_line Examples.range_host MoreExamples.nothing_allowed_config
    (mdx_include_get_processed_lines Examples.range_host
       MoreExamples.nothing_allowed_config 0)
    "" [] "{! gone.md !}{! gone.md !}" Sample.fresh
  = (Sample.fresh, Ok [EmptyString; EmptyString]).
Proof.
  refine (proj1 (truncated_directives_split_line Examples.range_host
                   MoreExamples.nothing_allowed_config _ "" []
                   "{! gone.md !}{! gone.md !}" Sample.fresh
                   eq_refl eq_refl eq_refl _)).
  intros m Hm.
  apply elem_of_cons in Hm as [->|Hm]; [reflexivity|].
  apply elem_of_cons in Hm as [->|Hm]; [reflexivity|].
  by apply elem_of_nil in Hm.
Defined.

(** ** Circular inclusion, allowed and reported *)

(** C2 does not hold of the code where it says that the run completes.
    Circular inclusion is allowed; the first line of [a.md] includes line 2
    of [a.md] itself, an empty line, with the strip-indent marker.  The key
    is cyclic, the inclusion is taken without recursion and gives the one
    empty line, and then [min] of lines 374-376 has nothing to take the
    minimum of: the run ends in [ValueError]. *)
Theorem allowed_circular_inclusion_run_fails :
  let host := Cases.blank_cycle_host in
  let self := Examples.circular_config in
  let s1 := fst (fetch_directive host self "" (Sample.plain 0 10 "a.md")
                   (with_new_tracker Sample.fresh)) in
  allow_circular_inclusion self = true
  ∧ Cyclic_is_cyclic "a.md"
      (cyclic (fst (fetch_directive host self "a.md" Cases.blank_line_match s1)))
    = true
  ∧ snd (include_directive host self
           (mdx_include_get_processed_lines host self 1) "a.md"
           Cases.blank_line_match s1)
    = Ok ([EmptyString], true)
  ∧ snd (run host self 3 ["{! a.md !}"] Sample.fresh)
    = Raise (ValueError "min() arg is an empty sequence").
Proof. repeat split; vm_compute; reflexivity. Qed.

(** When the expansion of a document comes to a directive that is not
    escaped, whose inclusion is recursive and whose key the tracker reports
    as cyclic: with circular inclusion not allowed, [run] ends with the
    [RuntimeError] whose text names the including file, the key, and the
    parents recorded for the key; with circular inclusion allowed, the
    inclusion gives the lines fetched, none of them processed, and leaves
    the state as the fetch left it. *)
Theorem circular_inclusion_reported {T} `{CyclicOps T} (host : Host)
    (self : Config) fuel lines (st : State T) n parent line acc m st2 f st3 :
  reaches host self fuel lines "" (with_new_tracker st) n parent line acc m st2 →
  Py.truthy_opt (g_escape m) = false →
  fetch_directive host self parent m st2 = (st3, Ok (Some f)) →
  effective_recursion self (f_recursive f) (g_recursive m) = true →
  Cyclic_is_cyclic (f_key f) (cyclic st3) = true →
  if allow_circular_inclusion self then
    include_directive host self (mdx_include_get_processed_lines host self n)
      parent m st2
    = (st3, Ok (f_textl f, f_stat f))
  else
    run host self fuel lines st
    = (st3,
       Raise (RuntimeError
                ("Circular inclusion not allowed; detected in file: "
                 +:+ parent +:+ " when including " +:+ f_key f
                 +:+ " whose parents are: "
                 +:+ Cyclic_root_str (f_key f) (cyclic st3)))).
Proof.
  intros Hreach Hesc Hf Heff Hcyc.
  pose proof (circular_inclusion_policy host self fuel lines st n parent line
                acc m st2 f st3 Hreach Hesc Hf Heff Hcyc) as Hp.
  destruct (allow_circular_inclusion self); exact Hp.
Qed.

Lemma circular_inclusion_reported_witness :
  snd (run Examples.cycle_host default_config 3 Examples.cycle_document
         Sample.fresh)
  = Raise (RuntimeError
             "Circular inclusion not allowed; detected in file: b.md when including a.md whose parents are: b.md, a.md, ")
  ∧ snd (include_directive Examples.cycle_host Examples.circular_config
           (mdx_include_get_processed_lines Examples.cycle_host
              Examples.circular_config 0)
           "b.md" (Sample.plain 0 10 "a.md")
           (fst (fetch_directive Examples.cycle_host Examples.circular_config
                   "a.md" (Sample.plain 0 10 "b.md")
                   (fst (fetch_directive Examples.cycle_host
                           Examples.circular_config ""
                           (Sample.plain 0 10 "a.md")
                           (with_new_tracker Sample.fresh))))))
    = Ok (["{! b.md !}"], true).
Proof.
  pose (ma := Sample.plain 0 10 "a.md").
  pose (mb := Sample.plain 0 10 "b.md").
  pose (s0 := with_new_tracker Sample.fresh).
  pose (f1 := {| f_key := "a.md"; f_recursive := Some true;
                 f_textl := ["{! b.md !}"]; f_stat := true |}).
  pose (f2 := {| f_key := "b.md"; f_recursive := Some true;
                 f_textl := ["{! a.md !}"]; f_stat := true |}).
  split.
  - pose (h := Examples.cycle_host).
    pose (s1 := fst (fetch_directive h default_config "" ma s0)).
    pose (s2 := fst (fetch_directive h default_config "a.md" mb s1)).
    pose (s3 := fst (fetch_directive h default_config "b.md" ma s2)).
    assert (Hreach : reaches h default_config 3 Examples.cycle_document ""
                       s0 0 "b.md" "{! a.md !}" (0, []) ma s2).
    { apply (reaches_inside h default_config 2 _ "" s0 "{! a.md !}" (0, []) ma
               s0 f1 s1).
      - exists [], [], [], s0, [], []. repeat split.
      - reflexivity.
      - vm_compute. reflexivity.
      - reflexivity.
      - vm_compute. reflexivity.
      - apply (reaches_inside h default_config 1 _ "a.md" s1 "{! b.md !}"
                 (0, []) mb s1 f2 s2).
        + exists [], [], [], s1, [], []. repeat split.
        + reflexivity.
        + vm_compute. reflexivity.
        + reflexivity.
        + vm_compute. reflexivity.
        + apply reaches_here.
          exists [], [], [], s2, [], []. repeat split. }
    pose proof (circular_inclusion_reported h default_config 3
                  Examples.cycle_document Sample.fresh 0 "b.md" "{! a.md !}"
                  (0, []) ma s2 f1 s3 Hreach eq_refl) as Hthm.
    simpl allow_circular_inclusion in Hthm. cbv iota in Hthm.
    subst h. rewrite Hthm.
    + vm_compute. reflexivity.
    + vm_compute. reflexivity.
    + reflexivity.
    + vm_compute. reflexivity.
  - pose (h := Examples.cycle_host).
    pose (c := Examples.circular_config).
    pose (s1 := fst (fetch_directive h c "" ma s0)).
    pose (s2 := fst (fetch_directive h c "a.md" mb s1)).
    pose (s3 := fst (fetch_directive h c "b.md" ma s2)).
    assert (Hreach : reaches h c 3 Examples.cycle_document ""
                       s0 0 "b.md" "{! a.md !}" (0, []) ma s2).
    { apply (reaches_inside h c 2 _ "" s0 "{! a.md !}" (0, []) ma s0 f1 s1).
      - exists [], [], [], s0, [], []. repeat split.
      - reflexivity.
      - vm_compute. reflexivity.
      - reflexivity.
      - vm_compute. reflexivity.
      - apply (reaches_inside h c 1 _ "a.md" s1 "{! b.md !}" (0, []) mb s1
                 f2 s2).
        + exists [], [], [], s1, [], []. repeat split.
        + reflexivity.
        + vm_compute. reflexivity.
        + reflexivity.
        + vm_compute. reflexivity.
        + apply reaches_here.
          exists [], [], [], s2, [], []. repeat split. }
    pose proof (circular_inclusion_reported h c 3
                  Examples.cycle_document Sample.fresh 0 "b.md" "{! a.md !}"
                  (0, []) ma s2
                  {| f_key := "a.md"; f_recursive := Some true;
                     f_textl := ["{! b.md !}"]; f_stat := true |}
                  s3 Hreach eq_refl) as Hthm.
    subst c. simpl allow_circular_inclusion in Hthm. cbv iota in Hthm.
    subst h s2 s1 s0 ma mb. rewrite Hthm.
    + reflexivity.
    + vm_compute. reflexivity.
    + reflexivity.
    + vm_compute. reflexivity.
Defined.

(** ** The text of an escaped directive *)

Lemma from_from (n k : nat) (s : string) :
  Py.from n (Py.from k s) = Py.from (k + n) s.
Proof.
  revert s. induction k as [|k IH]; intros s; simpl.
  - reflexivity.
  - destruct s as [|c s]; simpl.
    + destruct n; reflexivity.
    + apply IH.
Qed.

Lemma from_one_upto (k : nat) (s : string) :
  Py.from 1 (Py.upto k s) = Py.upto (k - 1) (Py.from 1 s).
Proof.
  destruct k as [|k]; simpl.
  - destruct s; reflexivity.
  - destruct s as [|c s]; simpl.
    + destruct (k - 0); reflexivity.
    + rewrite Nat.sub_0_r. reflexivity.
Qed.

Lemma from_one_slice (s e : nat) (line : string) :
  Py.from 1 (Py.slice s e line) = Py.slice (S s) e line.
Proof.
  unfold Py.slice. rewrite from_one_upto, from_from.
  replace (e - s - 1) with (e - S s) by lia.
  replace (s + 1) with (S s) by lia. reflexivity.
Qed.

(** C3 does not hold of the code for a pattern whose left delimiter
    starts with white space ([syntax_left] is an option of the extension):
    the text of the match without the escape character then starts with a
    blank, and the strip-indent marker of the escaped directive makes lines
    374-379 remove it.  The line consists of the escaped directive; the
    claim asks for the text from the second character on, the run gives
    the text from the third. *)
Theorem escaped_literal_is_stripped :
  Py.truthy_opt (g_escape Cases.spaced_match) = true
  ∧ Py.from 1 (group0 Cases.spaced_line Cases.spaced_match) = " {!< x !}"
  ∧ run Cases.spaced_host default_config 1 [Cases.spaced_line] Sample.fresh
    = (with_new_tracker Sample.fresh, Ok ["{!< x !}"]).
Proof. repeat split; vm_compute; reflexivity. Qed.

(** An escaped directive whose text after the escape character starts
    with something other than white space (or that has no strip-indent
    marker) leaves the state alone and puts into the buffer of the line the
    text before the match, [line[c:s]], followed by the text of the match
    from its second character on, [line[s+1:e]]: as a line of its own when
    it is the first match of the line, at the end of the last line of the
    buffer otherwise.  The offset moves to the end of the match. *)
Theorem escaped_directive_text {T} `{CyclicOps T} (host : Host)
    (self : Config) (recur : list string → string → M T (list string))
    parent line c resll m (st : State T) :
  Py.truthy_opt (g_escape m) = true →
  (Py.truthy_opt (g_strip_indent m) = true →
   starts_nonspace (Py.slice (S (m_start m)) (m_end m) line) = true) →
  process_match host self recur parent line (c, resll) m st
  = (st,
     Ok (m_end m,
         match resll with
         | [] =>
             [Py.slice c (m_start m) line
              +:+ Py.slice (S (m_start m)) (m_end m) line]
         | _ :: _ =>
             set_last
               (λ last, last +:+ Py.slice c (m_start m) line
                        +:+ Py.slice (S (m_start m)) (m_end m) line)
               resll
         end)).
Proof.
  intros Hesc Hs.
  assert (Htext : Py.from 1 (group0 line m)
                  = Py.slice (S (m_start m)) (m_end m) line)
    by (unfold group0; apply from_one_slice).
  unfold process_match.
  erewrite bind_Ok; [|by apply match_content_escaped].
  erewrite bind_Ok;
    [|apply strip_content_single; rewrite Htext; exact Hs].
  rewrite Htext. unfold ret, splice. cbn [fst snd].
  destruct resll as [|r resll].
  - destruct (bool_decide (g_apply_indent m ≠ Some "")); reflexivity.
  - rewrite app_nil_r. reflexivity.
Qed.

Lemma escaped_directive_text_witness :
  process_match Cases.corner_host default_config
    (mdx_include_get_processed_lines Cases.corner_host default_config 1)
    "" Cases.inner_escaped_line (0, []) Cases.inner_escaped_match Sample.fresh
  = (Sample.fresh, Ok (22, ["see {!< nowhere.md !}"]))
  ∧ process_match Cases.corner_host default_config
      (mdx_include_get_processed_lines Cases.corner_host default_config 1)
      "" Cases.inner_escaped_line (2, ["kept"; "so far: "])
      Cases.inner_escaped_match Sample.fresh
    = (Sample.fresh, Ok (22, ["kept"; "so far: e {!< nowhere.md !}"])).
Proof.
  split.
  - refine (escaped_directive_text Cases.corner_host default_config _
              "" Cases.inner_escaped_line 0 [] Cases.inner_escaped_match
              Sample.fresh _ _).
    + reflexivity.
    + intros _. reflexivity.
  - refine (escaped_directive_text Cases.corner_host default_config _
              "" Cases.inner_escaped_line 2 ["kept"; "so far: "]
              Cases.inner_escaped_match Sample.fresh _ _).
    + reflexivity.
    + intros _. reflexivity.
Defined.

(** ** What a failed retrieval puts in place of the directive *)




(** ** The resolution of a path that starts with a tilde *)

Lemma rstrip_slash_head c r :
  Py.rstrip_slash (String c r) = EmptyString
  ∨ ∃ r', Py.rstrip_slash (String c r) = String c r'.
Proof.
  simpl. destruct (Py.rstrip_slash r); [|eauto].
  destruct (Ascii.eqb c "/"%char); eauto.
Qed.

Lemma from_find_slash rest :
  Py.from (Posix.find_slash rest) rest = EmptyString
  ∨ Posix.isabs (Py.from (Posix.find_slash rest) rest) = true.
Proof.
  induction rest as [|c r IH]; [by left|]. simpl.
  destruct (Ascii.eqb c "/"%char) eqn:Hc; [|exact IH].
  right. simpl. exact Hc.
Qed.

(** With an absolute home directory the expansion is absolute. *)
Lemma expanded_isabs home rest :
  Posix.isabs home = true →
  Posix.isabs
    (if Py.truthy (Py.rstrip_slash home
                   +:+ Py.from (Posix.find_slash rest) rest)
     then Py.rstrip_slash home +:+ Py.from (Posix.find_slash rest) rest
     else "/")
  = true.
Proof.
  intros Habs. destruct home as [|c r]; [discriminate|]. simpl in Habs.
  destruct (rstrip_slash_head c r) as [-> | [r' ->]].
  - rewrite append_empty.
    destruct (from_find_slash rest) as [-> | Htail]; [reflexivity|].
    destruct (Py.from _ rest); [discriminate|]. exact Htail.
  - rewrite append_cons. exact Habs.
Qed.

(** C10, as the code has it.  The path of a directive that is not escaped
    goes through [os.path.expanduser] before it is classified and
    resolved.  For a path that starts with a tilde, a local inclusion that
    is allowed and [os.path] of POSIX: when the user named after the tilde
    (the current user when no name is given) has a home directory
    [expanduser] puts it, without its final slashes, in place of the tilde
    and the name; when that home directory is absolute so is the expansion,
    and the expansion itself is the file read and the key recorded in the
    tracker, whatever [base_path] and the parent document are.  When the
    user has no home directory, [expanduser] gives the path back as it is;
    it is relative, and the file read is the path joined to the directory
    of the parent (with [recursive_relative_path], inside a parent) or to
    [base_path]. *)
Theorem tilde_path_resolution {T} `{CyclicOps T} (host : Host)
    (env : Posix.Env) (self : Config) parent m rest :
  (∀ p, expanduser host p = Posix.expanduser env p) →
  (∀ p, isabs host p = Posix.isabs p) →
  g_path m = String "~" rest →
  allow_local self = true →
  Py.truthy (url_netloc host (expanduser host (g_path m))) = false →
  let reads key :=
    ∀ st : State T,
      fetch_directive host self parent m st
      = match get_content_list host self Local key
                (choose_encoding host self (g_encoding m))
                (fst (cyclic_add key parent st)) with
        | (st1, Ok r) =>
            (st1, Ok (Some {| f_key := key; f_recursive := recurs_local self;
                              f_textl := slice_lines host (g_lines m) (fst r);
                              f_stat := snd r |}))
        | (st1, Raise e) => (st1, Raise e)
        end in
  match Posix.userhome env rest with
  | Some home =>
      let joined :=
        Py.rstrip_slash home +:+ Py.from (Posix.find_slash rest) rest in
      let expanded := if Py.truthy joined then joined else "/" in
      expanduser host (g_path m) = expanded
      ∧ (Posix.isabs home = true →
         Posix.isabs expanded = true
         ∧ directive_target host self parent m = Some (Local, expanded)
         ∧ reads expanded)
  | None =>
      let relative :=
        normpath host
          (path_join host
             (if recursive_relative_path self && Py.truthy parent
              then dirname host parent else base_path self)
             (g_path m)) in
      expanduser host (g_path m) = g_path m
      ∧ directive_target host self parent m = Some (Local, relative)
      ∧ reads relative
  end.
Proof.
  intros Hexp Habs Hpath Hlocal Hnet reads.
  assert (Hreads : ∀ key,
            directive_target host self parent m = Some (Local, key) →
            reads key).
  { intros key Ht st. rewrite fetch_directive_target, Ht. reflexivity. }
  assert (Htarget : directive_target host self parent m
                    = Some (Local,
                            local_filename host self
                              (expanduser host (g_path m)) parent)).
  { unfold directive_target. by rewrite Hnet, Hlocal. }
  assert (Hx : expanduser host (g_path m)
               = match Posix.userhome env rest with
                 | Some home =>
                     if Py.truthy (Py.rstrip_slash home
                                   +:+ Py.from (Posix.find_slash rest) rest)
                     then Py.rstrip_slash home
                          +:+ Py.from (Posix.find_slash rest) rest
                     else "/"
                 | None => g_path m
                 end).
  { rewrite Hexp, Hpath. unfold Posix.expanduser.
    change (Ascii.eqb "~"%char "~"%char) with true. cbv iota.
    destruct (Posix.userhome env rest); reflexivity. }
  destruct (Posix.userhome env rest) as [home|]; cbv zeta.
  - split; [exact Hx|]. intros Hhome.
    pose proof (expanded_isabs home rest Hhome) as Hisabs.
    assert (Ht : directive_target host self parent m
                 = Some (Local,
                         if Py.truthy
                              (Py.rstrip_slash home
                               +:+ Py.from (Posix.find_slash rest) rest)
                         then Py.rstrip_slash home
                              +:+ Py.from (Posix.find_slash rest) rest
                         else "/")).
    { rewrite Htarget. unfold local_filename.
      rewrite Hx, Habs, Hisabs. reflexivity. }
    split; [exact Hisabs|]. split; [exact Ht|]. apply Hreads, Ht.
  - split; [exact Hx|].
    assert (Ht : directive_target host self parent m
                 = Some (Local,
                         normpath host
                           (path_join host
                              (if recursive_relative_path self
                                  && Py.truthy parent
                               then dirname host parent else base_path self)
                              (g_path m)))).
    { rewrite Htarget. unfold local_filename.
      rewrite Hx, Habs, Hpath. simpl Posix.isabs. cbv iota. simpl negb. cbv iota.
      destruct (recursive_relative_path self && Py.truthy parent);
        reflexivity. }
    split; [exact Ht|]. apply Hreads, Ht.
Qed.

Lemma tilde_path_resolution_witness :
  directive_target Cases.corner_host Examples.docs_config "chapter/one.md"
    Examples.tilde_match
  = Some (Local, "/home/user/notes.md")
  ∧ directive_target Cases.corner_host Examples.docs_config "chapter/one.md"
      Cases.unknown_user_match
    = Some (Local, "chapter/~nosuchuser/x.md").
Proof.
  pose proof (tilde_path_resolution (T := gmap string (list string))
                Cases.corner_host Cases.env Examples.docs_config
                "chapter/one.md" Examples.tilde_match "/notes.md"
                (λ _, eq_refl) (λ _, eq_refl) eq_refl eq_refl eq_refl)
    as Hhome.
  pose proof (tilde_path_resolution (T := gmap string (list string))
                Cases.corner_host Cases.env Examples.docs_config
                "chapter/one.md" Cases.unknown_user_match "nosuchuser/x.md"
                (λ _, eq_refl) (λ _, eq_refl) eq_refl eq_refl eq_refl)
    as Hnone.
  hnf in Hhome, Hnone.
  destruct Hhome as (_ & Hhome).
  destruct (Hhome eq_refl) as (_ & Ht & _).
  destruct Hnone as (_ & Ht' & _).
  split; [exact Ht | exact Ht'].
Defined.

(** The claim as it stands does not hold: a path that starts with a tilde
    followed by the name of a user that does not exist is left as it is by
    [expanduser]; it is not absolute, and the file read is found under
    [base_path]. *)
Lemma unknown_user_path_is_relative :
  let host := Cases.corner_host in
  let self := Examples.docs_config in
  let r := run host self 3 ["{! ~nosuchuser/x.md !}"] Sample.fresh in
  g_path Cases.unknown_user_match = "~nosuchuser/x.md"
  ∧ finditer host "{! ~nosuchuser/x.md !}" = [Cases.unknown_user_match]
  ∧ expanduser host "~nosuchuser/x.md" = "~nosuchuser/x.md"
  ∧ isabs host "~nosuchuser/x.md" = false
  ∧ base_path self = "docs"
  ∧ directive_target host self "" Cases.unknown_user_match
    = Some (Local, "docs/~nosuchuser/x.md")
  ∧ snd r = Ok ["X"]
  ∧ trace (fst r)
    = [CacheLookup Local "docs/~nosuchuser/x.md" false;
       Retrieve Local "docs/~nosuchuser/x.md" "utf-8" true;
       CacheStore Local "docs/~nosuchuser/x.md" ["X"]].
Proof. repeat split; vm_compute; reflexivity. Qed.
